(** * FlowerSlide: the PPTX export routine of [src/utils/pptxGenerator.ts]

    A shallow embedding of [sanitizeText], [getBase64FromUrl] and
    [downloadPPTX], and the properties of the export pipeline stated over it.

    JavaScript strings are sequences of UTF-16 code units; promises are
    modelled by a small monad over an explicit world (clock, network log,
    console, alerts, files handed to the browser). *)

From Stdlib Require Import NArith String Ascii Lia.
From stdpp Require Import base option list gmap.

Local Open Scope N_scope.

(** ** JavaScript strings *)

(** A JavaScript string: its UTF-16 code units. *)
Abbreviation jsstring := (list N).

(** String literals of the source file are UTF-8 text; [lit] gives the UTF-16
    code units the engine holds for such a literal. *)
Fixpoint utf16_of_utf8 (bs : list N) : jsstring :=
  match bs with
  | [] => []
  | b0 :: r0 =>
      if b0 <? 0x80 then b0 :: utf16_of_utf8 r0
      else if b0 <? 0xE0 then
        match r0 with
        | b1 :: r1 =>
            N.lor (N.shiftl (N.land b0 0x1F) 6) (N.land b1 0x3F) :: utf16_of_utf8 r1
        | [] => [0xFFFD]
        end
      else if b0 <? 0xF0 then
        match r0 with
        | b1 :: b2 :: r2 =>
            N.lor (N.shiftl (N.land b0 0x0F) 12)
              (N.lor (N.shiftl (N.land b1 0x3F) 6) (N.land b2 0x3F))
              :: utf16_of_utf8 r2
        | _ => [0xFFFD]
        end
      else
        match r0 with
        | b1 :: b2 :: b3 :: r3 =>
            let cp := N.lor (N.shiftl (N.land b0 0x07) 18)
                        (N.lor (N.shiftl (N.land b1 0x3F) 12)
                           (N.lor (N.shiftl (N.land b2 0x3F) 6) (N.land b3 0x3F))) in
            let v := cp - 0x10000 in
            (0xD800 + N.shiftr v 10) :: (0xDC00 + N.land v 0x3FF) :: utf16_of_utf8 r3
        | _ => [0xFFFD]
        end
  end.

Definition lit (s : string) : jsstring :=
  utf16_of_utf8 (List.map N_of_ascii (list_ascii_of_string s)).

(** Truthiness of a string: only the empty string is falsy. *)
Definition truthy (s : jsstring) : bool :=
  match s with [] => false | _ :: _ => true end.

(** [o || d] and [if (o)] on a value that is a string or [undefined]/[null]. *)
Definition truthy_opt (o : option jsstring) : bool :=
  match o with Some s => truthy s | None => false end.

(** ECMAScript WhiteSpace and LineTerminator code points, the set that
    [String.prototype.trim] strips. *)
Definition isWhiteSpace (c : N) : bool :=
  ((0x09 <=? c) && (c <=? 0x0D)) || (c =? 0x20) || (c =? 0xA0) || (c =? 0x1680)
  || ((0x2000 <=? c) && (c <=? 0x200A)) || (c =? 0x2028) || (c =? 0x2029)
  || (c =? 0x202F) || (c =? 0x205F) || (c =? 0x3000) || (c =? 0xFEFF).

Fixpoint trimStart (s : jsstring) : jsstring :=
  match s with
  | [] => []
  | c :: r => if isWhiteSpace c then trimStart r else s
  end.

Fixpoint trimEnd (s : jsstring) : jsstring :=
  match s with
  | [] => []
  | c :: r =>
      match trimEnd r with
      | [] => if isWhiteSpace c then [] else [c]
      | r' => c :: r'
      end
  end.

(** [s.trim()] *)
Definition trim (s : jsstring) : jsstring := trimEnd (trimStart s).

(** [s.charAt(i)]: a string of one code unit, empty when out of range. *)
Definition charAt (s : jsstring) (i : nat) : jsstring :=
  match s !! i with Some c => [c] | None => [] end.

(** [s.slice(i)] for a non-negative index. *)
Definition slice (s : jsstring) (i : nat) : jsstring := drop i s.

(** [s.substring(0, n)] *)
Definition substring0 (s : jsstring) (n : nat) : jsstring := take n s.

(** [s.startsWith(p)] *)
Fixpoint startsWith (s p : jsstring) : bool :=
  match p, s with
  | [], _ => true
  | _ :: _, [] => false
  | a :: p', b :: s' => (a =? b) && startsWith s' p'
  end.

(** ** Upper-casing

    The Unicode default upper-case mapping (UnicodeData and the unconditional
    entries of SpecialCasing, Unicode 14.0) of the code points of the Basic
    Multilingual Plane.  A row [(first, last, step, target)] of [upper_simple]
    sends [first + k * step <= last] to [target + k * step]. *)

Definition upper_simple : list (N * N * N * N) :=
  [ (0x0061, 0x007A, 1, 0x0041); (0x00B5, 0x00B5, 1, 0x039C); (0x00E0, 0x00F6, 1, 0x00C0)
  ; (0x00F8, 0x00FE, 1, 0x00D8); (0x00FF, 0x00FF, 1, 0x0178); (0x0101, 0x012F, 2, 0x0100)
  ; (0x0131, 0x0131, 1, 0x0049); (0x0133, 0x0137, 2, 0x0132); (0x013A, 0x0148, 2, 0x0139)
  ; (0x014B, 0x0177, 2, 0x014A); (0x017A, 0x017E, 2, 0x0179); (0x017F, 0x017F, 1, 0x0053)
  ; (0x0180, 0x0180, 1, 0x0243); (0x0183, 0x0185, 2, 0x0182); (0x0188, 0x0188, 1, 0x0187)
  ; (0x018C, 0x018C, 1, 0x018B); (0x0192, 0x0192, 1, 0x0191); (0x0195, 0x0195, 1, 0x01F6)
  ; (0x0199, 0x0199, 1, 0x0198); (0x019A, 0x019A, 1, 0x023D); (0x019E, 0x019E, 1, 0x0220)
  ; (0x01A1, 0x01A5, 2, 0x01A0); (0x01A8, 0x01A8, 1, 0x01A7); (0x01AD, 0x01AD, 1, 0x01AC)
  ; (0x01B0, 0x01B0, 1, 0x01AF); (0x01B4, 0x01B6, 2, 0x01B3); (0x01B9, 0x01B9, 1, 0x01B8)
  ; (0x01BD, 0x01BD, 1, 0x01BC); (0x01BF, 0x01BF, 1, 0x01F7); (0x01C5, 0x01C5, 1, 0x01C4)
  ; (0x01C6, 0x01C6, 1, 0x01C4); (0x01C8, 0x01C8, 1, 0x01C7); (0x01C9, 0x01C9, 1, 0x01C7)
  ; (0x01CB, 0x01CB, 1, 0x01CA); (0x01CC, 0x01CC, 1, 0x01CA); (0x01CE, 0x01DC, 2, 0x01CD)
  ; (0x01DD, 0x01DD, 1, 0x018E); (0x01DF, 0x01EF, 2, 0x01DE); (0x01F2, 0x01F2, 1, 0x01F1)
  ; (0x01F3, 0x01F3, 1, 0x01F1); (0x01F5, 0x01F5, 1, 0x01F4); (0x01F9, 0x021F, 2, 0x01F8)
  ; (0x0223, 0x0233, 2, 0x0222); (0x023C, 0x023C, 1, 0x023B); (0x023F, 0x0240, 1, 0x2C7E)
  ; (0x0242, 0x0242, 1, 0x0241); (0x0247, 0x024F, 2, 0x0246); (0x0250, 0x0250, 1, 0x2C6F)
  ; (0x0251, 0x0251, 1, 0x2C6D); (0x0252, 0x0252, 1, 0x2C70); (0x0253, 0x0253, 1, 0x0181)
  ; (0x0254, 0x0254, 1, 0x0186); (0x0256, 0x0257, 1, 0x0189); (0x0259, 0x0259, 1, 0x018F)
  ; (0x025B, 0x025B, 1, 0x0190); (0x025C, 0x025C, 1, 0xA7AB); (0x0260, 0x0260, 1, 0x0193)
  ; (0x0261, 0x0261, 1, 0xA7AC); (0x0263, 0x0263, 1, 0x0194); (0x0265, 0x0265, 1, 0xA78D)
  ; (0x0266, 0x0266, 1, 0xA7AA); (0x0268, 0x0268, 1, 0x0197); (0x0269, 0x0269, 1, 0x0196)
  ; (0x026A, 0x026A, 1, 0xA7AE); (0x026B, 0x026B, 1, 0x2C62); (0x026C, 0x026C, 1, 0xA7AD)
  ; (0x026F, 0x026F, 1, 0x019C); (0x0271, 0x0271, 1, 0x2C6E); (0x0272, 0x0272, 1, 0x019D)
  ; (0x0275, 0x0275, 1, 0x019F); (0x027D, 0x027D, 1, 0x2C64); (0x0280, 0x0280, 1, 0x01A6)
  ; (0x0282, 0x0282, 1, 0xA7C5); (0x0283, 0x0283, 1, 0x01A9); (0x0287, 0x0287, 1, 0xA7B1)
  ; (0x0288, 0x0288, 1, 0x01AE); (0x0289, 0x0289, 1, 0x0244); (0x028A, 0x028B, 1, 0x01B1)
  ; (0x028C, 0x028C, 1, 0x0245); (0x0292, 0x0292, 1, 0x01B7); (0x029D, 0x029D, 1, 0xA7B2)
  ; (0x029E, 0x029E, 1, 0xA7B0); (0x0345, 0x0345, 1, 0x0399); (0x0371, 0x0373, 2, 0x0370)
  ; (0x0377, 0x0377, 1, 0x0376); (0x037B, 0x037D, 1, 0x03FD); (0x03AC, 0x03AC, 1, 0x0386)
  ; (0x03AD, 0x03AF, 1, 0x0388); (0x03B1, 0x03C1, 1, 0x0391); (0x03C2, 0x03C2, 1, 0x03A3)
  ; (0x03C3, 0x03CB, 1, 0x03A3); (0x03CC, 0x03CC, 1, 0x038C); (0x03CD, 0x03CE, 1, 0x038E)
  ; (0x03D0, 0x03D0, 1, 0x0392); (0x03D1, 0x03D1, 1, 0x0398); (0x03D5, 0x03D5, 1, 0x03A6)
  ; (0x03D6, 0x03D6, 1, 0x03A0); (0x03D7, 0x03D7, 1, 0x03CF); (0x03D9, 0x03EF, 2, 0x03D8)
  ; (0x03F0, 0x03F0, 1, 0x039A); (0x03F1, 0x03F1, 1, 0x03A1); (0x03F2, 0x03F2, 1, 0x03F9)
  ; (0x03F3, 0x03F3, 1, 0x037F); (0x03F5, 0x03F5, 1, 0x0395); (0x03F8, 0x03F8, 1, 0x03F7)
  ; (0x03FB, 0x03FB, 1, 0x03FA); (0x0430, 0x044F, 1, 0x0410); (0x0450, 0x045F, 1, 0x0400)
  ; (0x0461, 0x0481, 2, 0x0460); (0x048B, 0x04BF, 2, 0x048A); (0x04C2, 0x04CE, 2, 0x04C1)
  ; (0x04CF, 0x04CF, 1, 0x04C0); (0x04D1, 0x052F, 2, 0x04D0); (0x0561, 0x0586, 1, 0x0531)
  ; (0x10D0, 0x10FA, 1, 0x1C90); (0x10FD, 0x10FF, 1, 0x1CBD); (0x13F8, 0x13FD, 1, 0x13F0)
  ; (0x1C80, 0x1C80, 1, 0x0412); (0x1C81, 0x1C81, 1, 0x0414); (0x1C82, 0x1C82, 1, 0x041E)
  ; (0x1C83, 0x1C84, 1, 0x0421); (0x1C85, 0x1C85, 1, 0x0422); (0x1C86, 0x1C86, 1, 0x042A)
  ; (0x1C87, 0x1C87, 1, 0x0462); (0x1C88, 0x1C88, 1, 0xA64A); (0x1D79, 0x1D79, 1, 0xA77D)
  ; (0x1D7D, 0x1D7D, 1, 0x2C63); (0x1D8E, 0x1D8E, 1, 0xA7C6); (0x1E01, 0x1E95, 2, 0x1E00)
  ; (0x1E9B, 0x1E9B, 1, 0x1E60); (0x1EA1, 0x1EFF, 2, 0x1EA0); (0x1F00, 0x1F07, 1, 0x1F08)
  ; (0x1F10, 0x1F15, 1, 0x1F18); (0x1F20, 0x1F27, 1, 0x1F28); (0x1F30, 0x1F37, 1, 0x1F38)
  ; (0x1F40, 0x1F45, 1, 0x1F48); (0x1F51, 0x1F57, 2, 0x1F59); (0x1F60, 0x1F67, 1, 0x1F68)
  ; (0x1F70, 0x1F71, 1, 0x1FBA); (0x1F72, 0x1F75, 1, 0x1FC8); (0x1F76, 0x1F77, 1, 0x1FDA)
  ; (0x1F78, 0x1F79, 1, 0x1FF8); (0x1F7A, 0x1F7B, 1, 0x1FEA); (0x1F7C, 0x1F7D, 1, 0x1FFA)
  ; (0x1FB0, 0x1FB1, 1, 0x1FB8); (0x1FBE, 0x1FBE, 1, 0x0399); (0x1FD0, 0x1FD1, 1, 0x1FD8)
  ; (0x1FE0, 0x1FE1, 1, 0x1FE8); (0x1FE5, 0x1FE5, 1, 0x1FEC); (0x214E, 0x214E, 1, 0x2132)
  ; (0x2170, 0x217F, 1, 0x2160); (0x2184, 0x2184, 1, 0x2183); (0x24D0, 0x24E9, 1, 0x24B6)
  ; (0x2C30, 0x2C5F, 1, 0x2C00); (0x2C61, 0x2C61, 1, 0x2C60); (0x2C65, 0x2C65, 1, 0x023A)
  ; (0x2C66, 0x2C66, 1, 0x023E); (0x2C68, 0x2C6C, 2, 0x2C67); (0x2C73, 0x2C73, 1, 0x2C72)
  ; (0x2C76, 0x2C76, 1, 0x2C75); (0x2C81, 0x2CE3, 2, 0x2C80); (0x2CEC, 0x2CEE, 2, 0x2CEB)
  ; (0x2CF3, 0x2CF3, 1, 0x2CF2); (0x2D00, 0x2D25, 1, 0x10A0); (0x2D27, 0x2D27, 1, 0x10C7)
  ; (0x2D2D, 0x2D2D, 1, 0x10CD); (0xA641, 0xA66D, 2, 0xA640); (0xA681, 0xA69B, 2, 0xA680)
  ; (0xA723, 0xA72F, 2, 0xA722); (0xA733, 0xA76F, 2, 0xA732); (0xA77A, 0xA77C, 2, 0xA779)
  ; (0xA77F, 0xA787, 2, 0xA77E); (0xA78C, 0xA78C, 1, 0xA78B); (0xA791, 0xA793, 2, 0xA790)
  ; (0xA794, 0xA794, 1, 0xA7C4); (0xA797, 0xA7A9, 2, 0xA796); (0xA7B5, 0xA7C3, 2, 0xA7B4)
  ; (0xA7C8, 0xA7CA, 2, 0xA7C7); (0xA7D1, 0xA7D1, 1, 0xA7D0); (0xA7D7, 0xA7D9, 2, 0xA7D6)
  ; (0xA7F6, 0xA7F6, 1, 0xA7F5); (0xAB53, 0xAB53, 1, 0xA7B3); (0xAB70, 0xABBF, 1, 0x13A0)
  ; (0xFF41, 0xFF5A, 1, 0xFF21) ]%N.

Definition upper_special : list (N * list N) :=
  [ (0x00DF, [0x0053; 0x0053]); (0x0149, [0x02BC; 0x004E]); (0x01F0, [0x004A; 0x030C])
  ; (0x0390, [0x0399; 0x0308; 0x0301]); (0x03B0, [0x03A5; 0x0308; 0x0301]); (0x0587, [0x0535; 0x0552])
  ; (0x1E96, [0x0048; 0x0331]); (0x1E97, [0x0054; 0x0308]); (0x1E98, [0x0057; 0x030A])
  ; (0x1E99, [0x0059; 0x030A]); (0x1E9A, [0x0041; 0x02BE]); (0x1F50, [0x03A5; 0x0313])
  ; (0x1F52, [0x03A5; 0x0313; 0x0300]); (0x1F54, [0x03A5; 0x0313; 0x0301]); (0x1F56, [0x03A5; 0x0313; 0x0342])
  ; (0x1F80, [0x1F08; 0x0399]); (0x1F81, [0x1F09; 0x0399]); (0x1F82, [0x1F0A; 0x0399])
  ; (0x1F83, [0x1F0B; 0x0399]); (0x1F84, [0x1F0C; 0x0399]); (0x1F85, [0x1F0D; 0x0399])
  ; (0x1F86, [0x1F0E; 0x0399]); (0x1F87, [0x1F0F; 0x0399]); (0x1F88, [0x1F08; 0x0399])
  ; (0x1F89, [0x1F09; 0x0399]); (0x1F8A, [0x1F0A; 0x0399]); (0x1F8B, [0x1F0B; 0x0399])
  ; (0x1F8C, [0x1F0C; 0x0399]); (0x1F8D, [0x1F0D; 0x0399]); (0x1F8E, [0x1F0E; 0x0399])
  ; (0x1F8F, [0x1F0F; 0x0399]); (0x1F90, [0x1F28; 0x0399]); (0x1F91, [0x1F29; 0x0399])
  ; (0x1F92, [0x1F2A; 0x0399]); (0x1F93, [0x1F2B; 0x0399]); (0x1F94, [0x1F2C; 0x0399])
  ; (0x1F95, [0x1F2D; 0x0399]); (0x1F96, [0x1F2E; 0x0399]); (0x1F97, [0x1F2F; 0x0399])
  ; (0x1F98, [0x1F28; 0x0399]); (0x1F99, [0x1F29; 0x0399]); (0x1F9A, [0x1F2A; 0x0399])
  ; (0x1F9B, [0x1F2B; 0x0399]); (0x1F9C, [0x1F2C; 0x0399]); (0x1F9D, [0x1F2D; 0x0399])
  ; (0x1F9E, [0x1F2E; 0x0399]); (0x1F9F, [0x1F2F; 0x0399]); (0x1FA0, [0x1F68; 0x0399])
  ; (0x1FA1, [0x1F69; 0x0399]); (0x1FA2, [0x1F6A; 0x0399]); (0x1FA3, [0x1F6B; 0x0399])
  ; (0x1FA4, [0x1F6C; 0x0399]); (0x1FA5, [0x1F6D; 0x0399]); (0x1FA6, [0x1F6E; 0x0399])
  ; (0x1FA7, [0x1F6F; 0x0399]); (0x1FA8, [0x1F68; 0x0399]); (0x1FA9, [0x1F69; 0x0399])
  ; (0x1FAA, [0x1F6A; 0x0399]); (0x1FAB, [0x1F6B; 0x0399]); (0x1FAC, [0x1F6C; 0x0399])
  ; (0x1FAD, [0x1F6D; 0x0399]); (0x1FAE, [0x1F6E; 0x0399]); (0x1FAF, [0x1F6F; 0x0399])
  ; (0x1FB2, [0x1FBA; 0x0399]); (0x1FB3, [0x0391; 0x0399]); (0x1FB4, [0x0386; 0x0399])
  ; (0x1FB6, [0x0391; 0x0342]); (0x1FB7, [0x0391; 0x0342; 0x0399]); (0x1FBC, [0x0391; 0x0399])
  ; (0x1FC2, [0x1FCA; 0x0399]); (0x1FC3, [0x0397; 0x0399]); (0x1FC4, [0x0389; 0x0399])
  ; (0x1FC6, [0x0397; 0x0342]); (0x1FC7, [0x0397; 0x0342; 0x0399]); (0x1FCC, [0x0397; 0x0399])
  ; (0x1FD2, [0x0399; 0x0308; 0x0300]); (0x1FD3, [0x0399; 0x0308; 0x0301]); (0x1FD6, [0x0399; 0x0342])
  ; (0x1FD7, [0x0399; 0x0308; 0x0342]); (0x1FE2, [0x03A5; 0x0308; 0x0300]); (0x1FE3, [0x03A5; 0x0308; 0x0301])
  ; (0x1FE4, [0x03A1; 0x0313]); (0x1FE6, [0x03A5; 0x0342]); (0x1FE7, [0x03A5; 0x0308; 0x0342])
  ; (0x1FF2, [0x1FFA; 0x0399]); (0x1FF3, [0x03A9; 0x0399]); (0x1FF4, [0x038F; 0x0399])
  ; (0x1FF6, [0x03A9; 0x0342]); (0x1FF7, [0x03A9; 0x0342; 0x0399]); (0x1FFC, [0x03A9; 0x0399])
  ; (0xFB00, [0x0046; 0x0046]); (0xFB01, [0x0046; 0x0049]); (0xFB02, [0x0046; 0x004C])
  ; (0xFB03, [0x0046; 0x0046; 0x0049]); (0xFB04, [0x0046; 0x0046; 0x004C]); (0xFB05, [0x0053; 0x0054])
  ; (0xFB06, [0x0053; 0x0054]); (0xFB13, [0x0544; 0x0546]); (0xFB14, [0x0544; 0x0535])
  ; (0xFB15, [0x0544; 0x053B]); (0xFB16, [0x054E; 0x0546]); (0xFB17, [0x0544; 0x053D]) ]%N.

Fixpoint lookup_simple (t : list (N * N * N * N)) (c : N) : option N :=
  match t with
  | [] => None
  | (first, last, step, target) :: t' =>
      if (first <=? c) && (c <=? last) && ((c - first) mod step =? 0)
      then Some (target + (c - first))
      else lookup_simple t' c
  end.

Fixpoint lookup_special (t : list (N * list N)) (c : N) : option (list N) :=
  match t with
  | [] => None
  | (k, v) :: t' => if k =? c then Some v else lookup_special t' c
  end.

(** Upper-casing of the one-code-unit string [c]; a lone surrogate has no
    mapping and is returned as it is. *)
Definition upperUnit (c : N) : jsstring :=
  match lookup_special upper_special c with
  | Some v => v
  | None => match lookup_simple upper_simple c with
            | Some u => [u]
            | None => [c]
            end
  end.

(** [s.toUpperCase()], exact on strings without surrogate pairs; the source
    applies it to the result of [charAt] only, a string of at most one unit. *)
Definition toUpperCase (s : jsstring) : jsstring := mjoin (upperUnit <$> s).

(** ** [sanitizeText] (pptxGenerator.ts, lines 5-10) *)

Definition sanitizeText (text : jsstring) : jsstring :=
  if negb (truthy text) then []
  else
    let trimmed := trim text in
    if (length trimmed =? 0)%nat then []
    else toUpperCase (charAt trimmed 0) ++ slice trimmed 1.


(** ** The file-name filter

    The character class [[^a-zA-Z0-9а-яА-Я ]] of line 187; the Cyrillic
    ranges are U+0430..U+044F and U+0410..U+042F. *)
Definition inRange (lo hi c : N) : bool := (lo <=? c) && (c <=? hi).

Definition unsafeChar (c : N) : bool :=
  negb (inRange 0x61 0x7A c || inRange 0x41 0x5A c || inRange 0x30 0x39 c
        || inRange 0x0430 0x044F c || inRange 0x0410 0x042F c || (c =? 0x20)).

(** [s.replace(/[class]/g, replacement)] for a class of single code units. *)
Fixpoint replaceAll (class : N → bool) (replacement s : jsstring) : jsstring :=
  match s with
  | [] => []
  | c :: r => if class c then replacement ++ replaceAll class replacement r
              else c :: replaceAll class replacement r
  end.

(** ** The deck (src/types.ts) *)

Record HexColors := {
  hex_bg : jsstring;
  hex_text : jsstring;
  hex_accent : jsstring;
  hex_secondary : jsstring }.

Record ThemeColors := {
  bg : jsstring;
  text : jsstring;
  accent : jsstring;
  secondary : jsstring;
  hex : HexColors }.

Record Theme := {
  theme_id : jsstring;
  theme_name : jsstring;
  colors : ThemeColors }.

Record Slide := {
  title : jsstring;
  content : list jsstring;
  imageKeyword : jsstring;
  speakerNotes : option jsstring }.

Record Presentation := {
  mainTitle : jsstring;
  subTitle : option jsstring;
  slides : list Slide;
  includeImages : bool }.

(** ** The document under construction (the part of PptxGenJS the export uses) *)

Inductive Background :=
  | BackgroundData (data : jsstring)
  | BackgroundColor (color : jsstring).

Inductive Coord :=
  | Num (n : N)
  | Pct (s : jsstring).

Record SlideNumberProps := {
  sn_x : Coord;
  sn_y : Coord;
  sn_color : jsstring;
  sn_fontSize : N;
  sn_fontFace : jsstring }.

Inductive MasterObject :=
  | Rect (x y w h : Coord) (fill : jsstring).

Record SlideMasterProps := {
  master_title : jsstring;
  master_background : Background;
  master_slideNumber : SlideNumberProps;
  master_objects : list MasterObject }.

Record TextProps := {
  tp_x : Coord;
  tp_y : Coord;
  tp_w : Coord;
  tp_h : Coord;
  tp_fontSize : N;
  tp_bold : bool;
  tp_align : option jsstring;
  tp_color : jsstring;
  tp_bullet : option (jsstring * jsstring);
  tp_valign : option jsstring;
  tp_fontFace : jsstring;
  tp_shrinkText : bool }.

Record TextRun := {
  run_text : jsstring;
  run_breakLine : bool;
  run_indentLevel : N;
  run_paraSpaceAfter : N }.

Inductive SlideObject :=
  | TextObject (t : jsstring) (opts : TextProps)
  | TextRunsObject (runs : list TextRun) (opts : TextProps)
  | ShapeObject (shape : jsstring) (x y w h : Coord) (lineColor : jsstring) (lineWidth : N)
  | ImageObject (data : jsstring) (x y w h : Coord) (sizing : jsstring * Coord * Coord)
  | NotesObject (notes : jsstring).

Record PptxSlide := {
  masterName : jsstring;
  objects : list SlideObject }.

Record PptxGen := {
  pres_title : jsstring;
  pres_author : jsstring;
  pres_masters : list SlideMasterProps;
  pres_slides : list PptxSlide }.

(** [pres.addSlide({ masterName })] followed by the calls that fill the new
    page: the finished page is appended to the document. *)
Definition addSlide (pres : PptxGen) (page : PptxSlide) : PptxGen :=
  {| pres_title := pres_title pres;
     pres_author := pres_author pres;
     pres_masters := pres_masters pres;
     pres_slides := pres_slides pres ++ [page] |}.

(** [pres.defineSlideMaster(props)] *)
Definition defineSlideMaster (pres : PptxGen) (m : SlideMasterProps) : PptxGen :=
  {| pres_title := pres_title pres;
     pres_author := pres_author pres;
     pres_masters := pres_masters pres ++ [m];
     pres_slides := pres_slides pres |}.

(** ** The world the export runs in *)

Inductive JsError :=
  | AbortError
  | FetchFailed
  | ErrorMessage (msg : jsstring)
  | BodyFailed
  | ReaderFailed
  | WriteFailed (code : nat).

Inductive LogEntry :=
  | ConsoleWarn (msg arg : jsstring)
  | ConsoleErrorAt (msg : jsstring) (i : nat) (e : JsError)
  | ConsoleError (msg : jsstring) (e : JsError).

(** [now] is the clock in milliseconds, [requests] the URLs handed to
    [fetch], [writes] the [writeFile] calls, [files] the documents the browser
    saved, [deck] the in-memory deck of the application. *)
Record World := {
  now : nat;
  requests : list jsstring;
  console : list LogEntry;
  alerts : list jsstring;
  writes : list (jsstring * PptxGen);
  files : list (jsstring * PptxGen);
  deck : Presentation }.

Definition at_time (t : nat) (w : World) : World :=
  {| now := t; requests := requests w; console := console w; alerts := alerts w;
     writes := writes w; files := files w; deck := deck w |}.

Definition with_request (url : jsstring) (w : World) : World :=
  {| now := now w; requests := requests w ++ [url]; console := console w;
     alerts := alerts w; writes := writes w; files := files w; deck := deck w |}.

Definition with_log (l : LogEntry) (w : World) : World :=
  {| now := now w; requests := requests w; console := console w ++ [l];
     alerts := alerts w; writes := writes w; files := files w; deck := deck w |}.

Definition with_alert (msg : jsstring) (w : World) : World :=
  {| now := now w; requests := requests w; console := console w;
     alerts := alerts w ++ [msg]; writes := writes w; files := files w; deck := deck w |}.

Definition with_write (f : jsstring * PptxGen) (w : World) : World :=
  {| now := now w; requests := requests w; console := console w;
     alerts := alerts w; writes := writes w ++ [f]; files := files w; deck := deck w |}.

Definition with_file (f : jsstring * PptxGen) (w : World) : World :=
  {| now := now w; requests := requests w; console := console w;
     alerts := alerts w; writes := writes w; files := files w ++ [f]; deck := deck w |}.

(** What the outside does: how the [n]-th request answers, and whether the
    browser accepts a file. *)
Inductive ReaderBehaviour :=
  | ReaderLoads (result : option jsstring)
  | ReaderErrors.

Inductive BodyBehaviour :=
  | BodyArrives (dt : nat) (reader : ReaderBehaviour)
  | BodyFails (dt : nat)
  | BodyStalls.

Inductive NetBehaviour :=
  | Responds (dt : nat) (ok : bool) (body : BodyBehaviour)
  | NetFails (dt : nat)
  | NetStalls.

Inductive WriteBehaviour :=
  | WriteSucceeds
  | WriteFails (code : nat).

Record Env := {
  net : nat → jsstring → NetBehaviour;
  disk : jsstring → PptxGen → WriteBehaviour }.

(** ** Promises *)

Inductive Outcome (A : Type) :=
  | Fulfilled (a : A) (w : World)
  | Rejected (e : JsError) (w : World)
  | Pending (w : World).
Arguments Fulfilled {A} a w.
Arguments Rejected {A} e w.
Arguments Pending {A} w.

(** An asynchronous computation, awaited from a given world. *)
Definition Async (A : Type) : Type := World → Outcome A.

Global Instance Async_ret : MRet Async := λ A a w, Fulfilled a w.

Global Instance Async_bind : MBind Async := λ A B f m w,
  match m w with
  | Fulfilled a w' => f a w'
  | Rejected e w' => Rejected e w'
  | Pending w' => Pending w'
  end.

Definition throw {A} (e : JsError) : Async A := λ w, Rejected e w.

(** [try { body } catch (e) { handler }] *)
Definition try_catch {A} (body : Async A) (handler : JsError → Async A) : Async A :=
  λ w, match body w with
       | Rejected e w' => handler e w'
       | o => o
       end.

Definition console_warn (msg arg : jsstring) : Async unit :=
  λ w, Fulfilled () (with_log (ConsoleWarn msg arg) w).

Definition console_error_at (msg : jsstring) (i : nat) (e : JsError) : Async unit :=
  λ w, Fulfilled () (with_log (ConsoleErrorAt msg i e) w).

Definition console_error (msg : jsstring) (e : JsError) : Async unit :=
  λ w, Fulfilled () (with_log (ConsoleError msg e) w).

Definition alert (msg : jsstring) : Async unit :=
  λ w, Fulfilled () (with_alert msg w).

(** [setTimeout(() => controller.abort(), ms)]: the instant the controller
    aborts unless the timer is cleared first. *)
Definition setTimeout (ms : nat) : Async nat :=
  λ w, Fulfilled (now w + ms)%nat w.

Record Response := {
  ok : bool;
  body : BodyBehaviour }.

Record Blob := { reader : ReaderBehaviour }.

(** Waiting [dt] milliseconds for an event under an abort signal that fires
    at [abortAt] (never, when the timer is cleared): the event wins only if
    it comes strictly before the abort. *)
Definition aborted_before (abortAt : option nat) (t : nat) : option nat :=
  match abortAt with
  | Some d => if (d <=? t)%nat then Some d else None
  | None => None
  end.

Section Pipeline.

Variable env : Env.

(** [fetch(url, { signal })] *)
Definition fetch (url : jsstring) (abortAt : option nat) : Async Response :=
  λ w,
    let w1 := with_request url w in
    match net env (length (requests w)) url with
    | Responds dt ok body =>
        match aborted_before abortAt (now w + dt) with
        | Some d => Rejected AbortError (at_time d w1)
        | None => Fulfilled {| ok := ok; body := body |} (at_time (now w + dt) w1)
        end
    | NetFails dt =>
        match aborted_before abortAt (now w + dt) with
        | Some d => Rejected AbortError (at_time d w1)
        | None => Rejected FetchFailed (at_time (now w + dt) w1)
        end
    | NetStalls =>
        match abortAt with
        | Some d => Rejected AbortError (at_time d w1)
        | None => Pending w1
        end
    end.

(** [response.blob()] under the same signal. *)
Definition blob (response : Response) (abortAt : option nat) : Async Blob :=
  λ w,
    match body response with
    | BodyArrives dt rd =>
        match aborted_before abortAt (now w + dt) with
        | Some d => Rejected AbortError (at_time d w)
        | None => Fulfilled {| reader := rd |} (at_time (now w + dt) w)
        end
    | BodyFails dt =>
        match aborted_before abortAt (now w + dt) with
        | Some d => Rejected AbortError (at_time d w)
        | None => Rejected BodyFailed (at_time (now w + dt) w)
        end
    | BodyStalls =>
        match abortAt with
        | Some d => Rejected AbortError (at_time d w)
        | None => Pending w
        end
    end.

(** The promise of lines 29-42: [onloadend] resolves with the data URI when
    it starts with [data:image] and with the empty string otherwise;
    [onerror] rejects (the error event precedes [loadend], whose [resolve]
    then has no effect). *)
Definition readAsDataURL (b : Blob) : Async jsstring :=
  λ w,
    match reader b with
    | ReaderLoads result =>
        match result with
        | Some r => if truthy r && startsWith r (lit "data:image")
                    then Fulfilled r w else Fulfilled [] w
        | None => Fulfilled [] w
        end
    | ReaderErrors => Rejected ReaderFailed w
    end.

(** The delay of the abort timer, line 15. *)
Definition timeoutMs : nat := 4000.

(** ** [getBase64FromUrl] (lines 13-47)

    The [try] block returns the reader's promise without awaiting it, so the
    [catch] covers the fetch, the status check and the body, and a rejection
    of the reader's promise reaches the caller. *)
Definition getBase64FromUrl (url : jsstring) : Async jsstring :=
  timeoutId ← setTimeout timeoutMs;
  promise ← try_catch
    (response ← fetch url (Some timeoutId);
     (* clearTimeout(timeoutId): the signal does not abort any more *)
     let cleared : option nat := None in
     if negb (ok response)
     then throw (ErrorMessage (lit "Network response was not ok"))
     else
       b ← blob response cleared;
       mret (readAsDataURL b))
    (λ error,
       console_warn (lit "Failed to fetch image for PPTX (timeout or error):") url;;
       mret (mret []));
  promise.

(** ** [downloadPPTX] (lines 49-193) *)

Section Deck.

Variable presentation : Presentation.
Variable theme : Theme.
Variable imageSeeds : gmap nat jsstring.
Variable backgroundImage : option jsstring.
Variable customSlideImages : gmap nat jsstring.

(** Lines 63-65. *)
Definition masterBackground : Background :=
  match backgroundImage with
  | Some data => if truthy data then BackgroundData data
                 else BackgroundColor (hex_bg (hex (colors theme)))
  | None => BackgroundColor (hex_bg (hex (colors theme)))
  end.

(** Lines 68-83. *)
Definition masterSlide : SlideMasterProps :=
  {| master_title := lit "MASTER_SLIDE";
     master_background := masterBackground;
     master_slideNumber :=
       {| sn_x := Pct (lit "95%"); sn_y := Pct (lit "92%");
          sn_color := hex_secondary (hex (colors theme));
          sn_fontSize := 12; sn_fontFace := lit "Arial" |};
     master_objects :=
       if truthy_opt backgroundImage then []
       else [Rect (Num 0) (Pct (lit "95%")) (Pct (lit "100%")) (Pct (lit "5%"))
               (hex_accent (hex (colors theme)))] |}.

(** Lines 86-107. *)
Definition coverSlide : PptxSlide :=
  {| masterName := lit "MASTER_SLIDE";
     objects :=
       TextObject (sanitizeText (mainTitle presentation))
         {| tp_x := Pct (lit "5%"); tp_y := Pct (lit "30%");
            tp_w := Pct (lit "90%"); tp_h := Pct (lit "25%");
            tp_fontSize := 44; tp_bold := true; tp_align := Some (lit "center");
            tp_color := hex_text (hex (colors theme)); tp_bullet := None;
            tp_valign := None; tp_fontFace := lit "Arial"; tp_shrinkText := true |}
       :: match subTitle presentation with
          | Some sub =>
              if truthy sub then
                [TextObject (sanitizeText sub)
                   {| tp_x := Pct (lit "10%"); tp_y := Pct (lit "55%");
                      tp_w := Pct (lit "80%"); tp_h := Pct (lit "15%");
                      tp_fontSize := 24; tp_bold := false;
                      tp_align := Some (lit "center");
                      tp_color := hex_accent (hex (colors theme)); tp_bullet := None;
                      tp_valign := None; tp_fontFace := lit "Arial";
                      tp_shrinkText := true |}]
              else []
          | None => []
          end |}.

(** Lines 155-168: the value of [base64Image] when line 170 tests it. *)
Definition slideImage (i : nat) (slide : Slide) : Async (option jsstring) :=
  let base64Image := customSlideImages !! i in
  if negb (truthy_opt base64Image) then
    let seed := match imageSeeds !! i with
                | Some s => if truthy s then s else imageKeyword slide
                | None => imageKeyword slide
                end in
    let imageUrl := lit "https://picsum.photos/seed/" ++ seed ++ lit "/800/800" in
    try_catch
      (fetched ← getBase64FromUrl imageUrl;
       if truthy fetched then mret (Some fetched) else mret base64Image)
      (λ e,
         console_error_at (lit "Error fetching image for slide") i e;;
         mret base64Image)
  else mret base64Image.

(** Lines 111-182: one pass of the loop body, the page it adds. *)
Definition contentSlide (i : nat) (slide : Slide) : Async PptxSlide :=
  let titleText :=
    TextObject (sanitizeText (title slide))
      {| tp_x := Pct (lit "5%"); tp_y := Pct (lit "5%");
         tp_w := Pct (lit "90%"); tp_h := Pct (lit "15%");
         tp_fontSize := 32; tp_bold := true; tp_align := None;
         tp_color := hex_accent (hex (colors theme)); tp_bullet := None;
         tp_valign := None; tp_fontFace := lit "Arial"; tp_shrinkText := true |} in
  let underline :=
    ShapeObject (lit "line") (Pct (lit "5%")) (Pct (lit "21%")) (Pct (lit "90%")) (Num 0)
      (hex_accent (hex (colors theme))) 2 in
  let hasImage := includeImages presentation in
  let contentWidth := if hasImage then lit "50%" else lit "90%" in
  let bulletText :=
    (λ point, {| run_text := sanitizeText point; run_breakLine := true;
                 run_indentLevel := 0; run_paraSpaceAfter := 10 |}) <$> content slide in
  let bullets :=
    TextRunsObject bulletText
      {| tp_x := Pct (lit "5%"); tp_y := Pct (lit "25%");
         tp_w := Pct contentWidth; tp_h := Pct (lit "65%");
         tp_fontSize := 18; tp_bold := false; tp_align := None;
         tp_color := hex_text (hex (colors theme));
         tp_bullet := Some (lit "bullet", lit "2022");
         tp_valign := Some (lit "top"); tp_fontFace := lit "Arial";
         tp_shrinkText := true |} in
  image ←
    (if hasImage then
       base64Image ← slideImage i slide;
       match base64Image with
       | Some data =>
           if truthy data then
             mret [ImageObject data (Pct (lit "58%")) (Pct (lit "25%"))
                     (Pct (lit "37%")) (Pct (lit "60%"))
                     (lit "cover", Pct (lit "37%"), Pct (lit "60%"))]
           else mret []
       | None => mret []
       end
     else mret []);
  let notes :=
    match speakerNotes slide with
    | Some n => if truthy n then [NotesObject (sanitizeText n)] else []
    | None => []
    end in
  mret {| masterName := lit "MASTER_SLIDE";
          objects := [titleText; underline; bullets] ++ image ++ notes |}.

(** Lines 110-183: the loop, from index [i] over the slides still to do. *)
Fixpoint contentSlides (i : nat) (todo : list Slide) (pres : PptxGen) : Async PptxGen :=
  match todo with
  | [] => mret pres
  | slide :: rest =>
      page ← contentSlide i slide;
      contentSlides (S i) rest (addSlide pres page)
  end.

(** Line 187. *)
Definition safeTitle : jsstring :=
  let t := substring0 (replaceAll unsafeChar [] (mainTitle presentation)) 30 in
  if truthy t then t else lit "Presentation".

(** [pres.writeFile({ fileName })]: assembling the archive and handing it to
    the browser. *)
Definition writeFile (pres : PptxGen) (fileName : jsstring) : Async unit :=
  λ w,
    let w1 := with_write (fileName, pres) w in
    match disk env fileName pres with
    | WriteSucceeds => Fulfilled () (with_file (fileName, pres) w1)
    | WriteFails code => Rejected (WriteFailed code) w1
    end.

Definition saveErrorMessage : jsstring :=
  lit "Ошибка при сохранении файла. Попробуйте еще раз.".

Definition downloadPPTX : Async unit :=
  let pres := {| pres_title := mainTitle presentation;
                 pres_author := lit "FlowerSlide AI";
                 pres_masters := []; pres_slides := [] |} in
  let pres := defineSlideMaster pres masterSlide in
  let pres := addSlide pres coverSlide in
  pres ← contentSlides 0 (slides presentation) pres;
  try_catch
    (writeFile pres (safeTitle ++ lit ".pptx"))
    (λ e,
       console_error (lit "PPTX Generation Error:") e;;
       alert saveErrorMessage).

End Deck.

End Pipeline.

(** ** Vocabulary of the statements *)

(** Whitespace and non-whitespace code units. *)
Definition blank (c : N) : Prop := isWhiteSpace c = true.
Definition inked (c : N) : Prop := isWhiteSpace c = false.

(** An upper-case image [d] is settled: it is not whitespace and upper-casing
    leaves it alone. *)
Definition settled (d : N) : bool :=
  negb (isWhiteSpace d)
  && match upperUnit d with
     | [d'] => d' =? d
     | _ => false
     end.

Definition row_targets (row : N * N * N * N) : list N :=
  let '(first, last, step, target) := row in
  (λ j, target + N.of_nat j * step) <$> seq 0 (S (N.to_nat ((last - first) / step))).

Definition row_ok (row : N * N * N * N) : bool :=
  (0 <? row.1.2) && forallb settled (row_targets row).

Definition special_ok (e : N * list N) : bool :=
  match e.2 with
  | [] => false
  | d :: u => settled d && forallb (λ x, negb (isWhiteSpace x)) u
  end.

(** ** Observations on documents and requests *)

(** The image data embedded in a page. *)
Definition page_images (page : PptxSlide) : list jsstring :=
  omap (λ o, match o with ImageObject data _ _ _ _ _ => Some data | _ => None end)
       (objects page).

(** The text of the first text box of a page: its title. *)
Definition page_title (page : PptxSlide) : option jsstring :=
  match objects page with
  | TextObject t _ :: _ => Some t
  | _ => None
  end.

(** The master a page is laid out with, found by name. *)
Definition page_master (doc : PptxGen) (page : PptxSlide) : option SlideMasterProps :=
  List.find (λ m, bool_decide (master_title m = masterName page)) (pres_masters doc).

(** The URL line 161 builds from a seed. *)
Definition picsumUrl (seed : jsstring) : jsstring :=
  lit "https://picsum.photos/seed/" ++ seed ++ lit "/800/800".

(** The 4-second timer fires before the network has answered. *)
Definition timed_out (b : NetBehaviour) : bool :=
  match b with
  | Responds dt _ _ | NetFails dt => (timeoutMs <=? dt)%nat
  | NetStalls => true
  end.

(** The data URI the reader produced declares an image: it starts with
    [data:image]. *)
Definition declares_image (result : option jsstring) : bool :=
  match result with
  | Some r => startsWith r (lit "data:image")
  | None => false
  end.

(** The failures of the fetch policy: timeout, non-2xx status, network error
    (before the response or while the body is read), non-image payload. *)
Definition fetch_fails (b : NetBehaviour) : bool :=
  timed_out b
  || match b with
     | Responds _ false _ => true
     | Responds _ true (BodyFails _) => true
     | Responds _ true (BodyArrives _ (ReaderLoads result)) => negb (declares_image result)
     | NetFails _ => true
     | _ => false
     end.

(** A promise is settled by the instant [t]. *)
Definition settles_by {A} (t : nat) (o : Outcome A) : Prop :=
  match o with
  | Fulfilled _ w | Rejected _ w => (now w ≤ t)%nat
  | Pending _ => False
  end.

(** A console entry of the image step, not of the final write. *)
Definition image_log (l : LogEntry) : Prop :=
  match l with
  | ConsoleError _ _ => False
  | _ => True
  end.

(** What the image steps leave alone: the deck, the alerts and the files;
    the console only grows by entries of the image step. *)
Definition same_outside (w w' : World) : Prop :=
  deck w' = deck w ∧ alerts w' = alerts w ∧ writes w' = writes w ∧ files w' = files w
  ∧ ∃ logs, console w' = console w ++ logs ∧ Forall image_log logs.

(** ** The file name as the specification words it

    The allow-list read as whole scripts: Latin letters (Basic Latin, Latin-1
    Supplement, Latin Extended-A and -B), the letters of the Cyrillic block,
    the decimal digits and the space. *)
Definition latinLetter (c : N) : bool :=
  inRange 0x41 0x5A c || inRange 0x61 0x7A c || inRange 0xC0 0xD6 c
  || inRange 0xD8 0xF6 c || inRange 0xF8 0x024F c.

Definition cyrillicLetter (c : N) : bool :=
  inRange 0x0400 0x0481 c || inRange 0x048A 0x04FF c.

Definition scriptAllowed (c : N) : bool :=
  latinLetter c || cyrillicLetter c || inRange 0x30 0x39 c || (c =? 0x20).

Definition scriptFileName (mainTitle : jsstring) : jsstring :=
  let t := take 30 (List.filter scriptAllowed mainTitle) in
  if truthy t then t else lit "Presentation".

(** The allow-list of the regular expression, range by range. *)
Definition allowed (c : N) : Prop :=
  0x61 ≤ c ≤ 0x7A ∨ 0x41 ≤ c ≤ 0x5A ∨ 0x30 ≤ c ≤ 0x39
  ∨ 0x0430 ≤ c ≤ 0x044F ∨ 0x0410 ≤ c ≤ 0x042F ∨ c = 0x20.

(** A deck with the given title and nothing else. *)
Definition titled (t : jsstring) : Presentation :=
  {| mainTitle := t; subTitle := None; slides := []; includeImages := false |}.

(** The seed of line 160. *)
Definition slideSeed (imageSeeds : gmap nat jsstring) (i : nat) (slide : Slide) : jsstring :=
  if truthy_opt (imageSeeds !! i) then default [] (imageSeeds !! i)
  else imageKeyword slide.

(** The image block of a page that embeds [o], when [o] is a non-empty string. *)
Definition embedded (o : option jsstring) : list jsstring :=
  if truthy_opt o then [default [] o] else [].

(** A page laid out for a slide: it hangs off the master and starts with the
    slide's sanitized title. *)
Definition renders (slide : Slide) (page : PptxSlide) : Prop :=
  masterName page = lit "MASTER_SLIDE"
  ∧ page_title page = Some (sanitizeText (title slide)).

(** Some request gets a successful response whose body never completes. *)
Definition body_stalls (env : Env) : Prop :=
  ∃ n url dt, net env n url = Responds dt true BodyStalls.

(** The world a promise has reached. *)
Definition world_of {A} (o : Outcome A) : World :=
  match o with
  | Fulfilled _ w | Rejected _ w | Pending w => w
  end.

(** ** Sample inputs *)

(** The theme [clean-white] of src/utils/themes.ts. *)
Definition cleanWhite : Theme :=
  {| theme_id := lit "clean-white"; theme_name := lit "Clean White";
     colors := {| bg := lit "bg-white"; text := lit "text-gray-900";
                  accent := lit "bg-blue-600"; secondary := lit "text-gray-500";
                  hex := {| hex_bg := lit "ffffff"; hex_text := lit "111827";
                            hex_accent := lit "2563eb";
                            hex_secondary := lit "6b7280" |} |} |}.

Definition introSlide : Slide :=
  {| title := lit "intro"; content := [lit "a"; lit "b"];
     imageKeyword := lit "flower"; speakerNotes := None |}.

Definition outroSlide : Slide :=
  {| title := lit " итог"; content := [lit "конец "];
     imageKeyword := lit "sunset"; speakerNotes := Some (lit "thank the audience") |}.

Definition sampleDeck (images : bool) : Presentation :=
  {| mainTitle := lit "Моя Тема 2024!!!"; subTitle := Some (lit "demo");
     slides := [introSlide; outroSlide]; includeImages := images |}.

Definition freshWorld (d : Presentation) : World :=
  {| now := 0; requests := []; console := []; alerts := []; writes := [];
     files := []; deck := d |}.

Definition pngUri : jsstring := lit "data:image/png;base64,iVBORw0KGgo=".

Definition uploadUri : jsstring := lit "data:image/jpeg;base64,/9j/4AAQ".

(** Every request is answered after 100 ms with an image whose body takes
    ten seconds to arrive. *)
Definition slowBody : Env :=
  {| net := λ _ _, Responds 100 true (BodyArrives (10 * 1000) (ReaderLoads (Some pngUri)));
     disk := λ _ _, WriteSucceeds |}.

(** No request is ever answered. *)
Definition offline : Env :=
  {| net := λ _ _, NetStalls; disk := λ _ _, WriteSucceeds |}.

(** Images arrive quickly; the browser refuses the download. *)
Definition denied : Env :=
  {| net := λ _ _, Responds 20 true (BodyArrives 30 (ReaderLoads (Some pngUri)));
     disk := λ _ _, WriteFails 1 |}.

(** ** The theme catalog (src/utils/themes.ts) *)

Definition modernSlate : Theme :=
  {| theme_id := lit "modern-slate"; theme_name := lit "Modern Slate";
     colors := {| bg := lit "bg-slate-900"; text := lit "text-slate-50";
                  accent := lit "bg-indigo-500"; secondary := lit "text-slate-400";
                  hex := {| hex_bg := lit "0f172a"; hex_text := lit "f8fafc";
                            hex_accent := lit "6366f1";
                            hex_secondary := lit "94a3b8" |} |} |}.

Definition midnightPurple : Theme :=
  {| theme_id := lit "midnight-purple"; theme_name := lit "Midnight Purple";
     colors := {| bg := lit "bg-purple-950"; text := lit "text-purple-50";
                  accent := lit "bg-pink-500"; secondary := lit "text-purple-300";
                  hex := {| hex_bg := lit "3b0764"; hex_text := lit "faf5ff";
                            hex_accent := lit "ec4899";
                            hex_secondary := lit "d8b4fe" |} |} |}.

Definition forestCalm : Theme :=
  {| theme_id := lit "forest-calm"; theme_name := lit "Forest Calm";
     colors := {| bg := lit "bg-stone-100"; text := lit "text-stone-800";
                  accent := lit "bg-emerald-600"; secondary := lit "text-stone-600";
                  hex := {| hex_bg := lit "f5f5f4"; hex_text := lit "292524";
                            hex_accent := lit "059669";
                            hex_secondary := lit "57534e" |} |} |}.

Definition corporateBlue : Theme :=
  {| theme_id := lit "corporate-blue"; theme_name := lit "Corporate Blue";
     colors := {| bg := lit "bg-blue-900"; text := lit "text-white";
                  accent := lit "bg-amber-400"; secondary := lit "text-blue-200";
                  hex := {| hex_bg := lit "1e3a8a"; hex_text := lit "ffffff";
                            hex_accent := lit "fbbf24";
                            hex_secondary := lit "bfdbfe" |} |} |}.

Definition sunsetWarm : Theme :=
  {| theme_id := lit "sunset-warm"; theme_name := lit "Sunset Warm";
     colors := {| bg := lit "bg-orange-50"; text := lit "text-gray-900";
                  accent := lit "bg-orange-500"; secondary := lit "text-gray-600";
                  hex := {| hex_bg := lit "fff7ed"; hex_text := lit "111827";
                            hex_accent := lit "f97316";
                            hex_secondary := lit "4b5563" |} |} |}.

Definition PRESENTATION_THEMES : list Theme :=
  [modernSlate; cleanWhite; midnightPurple; forestCalm; corporateBlue; sunsetWarm].

(** [a === b] on strings. *)
Fixpoint strictEq (a b : jsstring) : bool :=
  match a, b with
  | [], [] => true
  | x :: a', y :: b' => (x =? y) && strictEq a' b'
  | _, _ => false
  end.

(** SlideViewer.tsx, line 131:
    [PRESENTATION_THEMES.find(t => t.id === themeId) || PRESENTATION_THEMES[0]]. *)
Definition findTheme (themeId : jsstring) : Theme :=
  match List.find (λ t, strictEq (theme_id t) themeId) PRESENTATION_THEMES with
  | Some t => t
  | None => hd modernSlate PRESENTATION_THEMES
  end.

(** A colour PptxGenJS accepts: six hexadecimal digits, no leading [#]. *)
Definition hexDigit (c : N) : bool :=
  inRange 0x30 0x39 c || inRange 0x61 0x66 c || inRange 0x41 0x46 c.

Definition hexColor (s : jsstring) : bool :=
  (length s =? 6)%nat && forallb hexDigit s.

(** Images arrive, but the reader fails on them. *)
Definition unreadable : Env :=
  {| net := λ _ _, Responds 20 true (BodyArrives 30 ReaderErrors);
     disk := λ _ _, WriteSucceeds |}.

(** ** The viewer (src/components/SlideViewer.tsx)

    The state the component keeps beside the deck it is given. *)
Record Viewer := {
  currentSlideIndex : nat;
  isExporting : bool;
  showExportMenu : bool;
  customBackground : option jsstring;
  customSlideImages : gmap nat jsstring;
  imageSeeds : gmap nat jsstring }.

Definition setCurrentSlideIndex (i : nat) (v : Viewer) : Viewer :=
  {| currentSlideIndex := i; isExporting := isExporting v;
     showExportMenu := showExportMenu v; customBackground := customBackground v;
     customSlideImages := customSlideImages v; imageSeeds := imageSeeds v |}.

Definition setIsExporting (b : bool) (v : Viewer) : Viewer :=
  {| currentSlideIndex := currentSlideIndex v; isExporting := b;
     showExportMenu := showExportMenu v; customBackground := customBackground v;
     customSlideImages := customSlideImages v; imageSeeds := imageSeeds v |}.

Definition setShowExportMenu (b : bool) (v : Viewer) : Viewer :=
  {| currentSlideIndex := currentSlideIndex v; isExporting := isExporting v;
     showExportMenu := b; customBackground := customBackground v;
     customSlideImages := customSlideImages v; imageSeeds := imageSeeds v |}.

Definition setCustomBackground (o : option jsstring) (v : Viewer) : Viewer :=
  {| currentSlideIndex := currentSlideIndex v; isExporting := isExporting v;
     showExportMenu := showExportMenu v; customBackground := o;
     customSlideImages := customSlideImages v; imageSeeds := imageSeeds v |}.

Definition setCustomSlideImages (m : gmap nat jsstring) (v : Viewer) : Viewer :=
  {| currentSlideIndex := currentSlideIndex v; isExporting := isExporting v;
     showExportMenu := showExportMenu v; customBackground := customBackground v;
     customSlideImages := m; imageSeeds := imageSeeds v |}.

Definition setImageSeeds (m : gmap nat jsstring) (v : Viewer) : Viewer :=
  {| currentSlideIndex := currentSlideIndex v; isExporting := isExporting v;
     showExportMenu := showExportMenu v; customBackground := customBackground v;
     customSlideImages := customSlideImages v; imageSeeds := m |}.

(** The state of a freshly mounted viewer (lines 106-129). *)
Definition mounted : Viewer :=
  {| currentSlideIndex := 0; isExporting := false; showExportMenu := false;
     customBackground := None; customSlideImages := ∅; imageSeeds := ∅ |}.

(** Lines 134-138: the effect that runs when the number of slides changes. *)
Definition resetEffect (presentation : Presentation) (v : Viewer) : Viewer :=
  if (length (slides presentation) <? currentSlideIndex v)%nat
  then setCurrentSlideIndex 0 v else v.

(** Lines 140-144. *)
Definition nextSlide (presentation : Presentation) (v : Viewer) : Viewer :=
  if (currentSlideIndex v <? length (slides presentation))%nat
  then setCurrentSlideIndex (currentSlideIndex v + 1) v else v.

(** Lines 146-150. *)
Definition prevSlide (v : Viewer) : Viewer :=
  if (0 <? currentSlideIndex v)%nat
  then setCurrentSlideIndex (currentSlideIndex v - 1) v else v.

(** Lines 174-176. *)
Definition isCover (v : Viewer) : bool := (currentSlideIndex v =? 0)%nat.

Definition slideData (presentation : Presentation) (v : Viewer) : option Slide :=
  if negb (isCover v) then slides presentation !! (currentSlideIndex v - 1)%nat
  else None.

Definition totalSlides (presentation : Presentation) : nat :=
  (length (slides presentation) + 1)%nat.

(** ** The keyboard and the renders of the viewer (lines 152-165)

    [e.key], as far as [handleKeyDown] tells keys apart. *)
Inductive Key := ArrowRight | SpaceKey | ArrowLeft | EscapeKey | OtherKey.

(** Lines 152-160, with the deck of the render this listener was registered
    in.  [editing] says that the focus is in an input or a textarea.  Escape
    only leaves full screen, which the viewer state here does not hold. *)
Definition handleKeyDown (closed : Presentation) (editing chatOpen : bool)
    (k : Key) (v : Viewer) : Viewer :=
  if editing || chatOpen then v
  else match k with
       | ArrowRight | SpaceKey => nextSlide closed v
       | ArrowLeft => prevSlide v
       | EscapeKey | OtherKey => v
       end.

(** The component on screen: the deck it was given last, its state, the chat
    flag, and the deck the registered keydown listener closes over. *)
Record Screen := {
  shown : Presentation;
  view : Viewer;
  isChatOpen : bool;
  heard : Presentation }.

(** Lines 162-165: after a render the listener is registered again, with
    the handlers of that render, only if the index or the chat flag changed. *)
Definition rendered (old : Screen) (p : Presentation) (v : Viewer) (chat : bool)
    : Screen :=
  {| shown := p; view := v; isChatOpen := chat;
     heard := if (currentSlideIndex v =? currentSlideIndex (view old))%nat
                 && Bool.eqb chat (isChatOpen old)
              then heard old else p |}.

(** What happens to the component: the arrow buttons (lines 580 and 587), the
    cover thumbnail and the thumbnail of a slide (lines 408 and 422), a key,
    the chat button (line 615), and a new deck from the parent, after which the effect of
    lines 134-138 runs if the number of slides changed. *)
Inductive Event :=
  | ClickNext
  | ClickPrev
  | ClickCover
  | ClickThumb (idx : nat)
  | Press (k : Key) (editing : bool)
  | ToggleChat
  | Replace (p' : Presentation).

(** The screen after an event; [None] for the thumbnail of a slide that is
    not there. *)
Definition react (e : Event) (s : Screen) : option Screen :=
  match e with
  | ClickNext =>
      Some (rendered s (shown s) (nextSlide (shown s) (view s)) (isChatOpen s))
  | ClickPrev =>
      Some (rendered s (shown s) (prevSlide (view s)) (isChatOpen s))
  | ClickCover =>
      Some (rendered s (shown s) (setCurrentSlideIndex 0 (view s)) (isChatOpen s))
  | ClickThumb idx =>
      if (idx <? length (slides (shown s)))%nat
      then Some (rendered s (shown s) (setCurrentSlideIndex (idx + 1) (view s))
                   (isChatOpen s))
      else None
  | Press k editing =>
      Some (rendered s (shown s)
              (handleKeyDown (heard s) editing (isChatOpen s) k (view s))
              (isChatOpen s))
  | ToggleChat =>
      Some (rendered s (shown s) (view s) (negb (isChatOpen s)))
  | Replace p' =>
      Some (rendered s p'
              (if (length (slides p') =? length (slides (shown s)))%nat
               then view s else resetEffect p' (view s))
              (isChatOpen s))
  end.

Fixpoint replay (events : list Event) (s : Screen) : option Screen :=
  match events with
  | [] => Some s
  | e :: rest =>
      match react e s with
      | Some s' => replay rest s'
      | None => None
      end
  end.

(** The component as it is mounted with a deck. *)
Definition mountedScreen (p : Presentation) : Screen :=
  {| shown := p; view := mounted; isChatOpen := false; heard := p |}.

(** The index is on the cover or on a slide; or it is one past the last
    slide and the listener's deck is too short to take it further. *)
Definition index_kept (s : Screen) : Prop :=
  (currentSlideIndex (view s) ≤ length (slides (shown s)))%nat
  ∨ (currentSlideIndex (view s) = length (slides (shown s)) + 1
     ∧ length (slides (heard s)) < currentSlideIndex (view s))%nat.

(** Decks of three slides and of one. *)
Definition threeSlides : Presentation :=
  {| mainTitle := lit "three"; subTitle := None;
     slides := [introSlide; outroSlide; introSlide]; includeImages := true |}.

Definition oneSlide : Presentation :=
  {| mainTitle := lit "one"; subTitle := None;
     slides := [outroSlide]; includeImages := true |}.

(** Lines 209-221.  [random] stands for
    [Math.random().toString(36).substring(7)]. *)
Definition refreshImage (random : jsstring) (presentation : Presentation) (v : Viewer)
    : Viewer :=
  match slideData presentation v with
  | None => v
  | Some sd =>
      let slideIdx := (currentSlideIndex v - 1)%nat in
      let v1 :=
        if truthy_opt (customSlideImages v !! slideIdx)
        then setCustomSlideImages (delete slideIdx (customSlideImages v)) v
        else v in
      let newSeed := imageKeyword sd ++ lit "-" ++ random in
      setImageSeeds (<[slideIdx := newSeed]> (imageSeeds v1)) v1
  end.

(** Lines 270-285: [handleSlideImageChange] starts a reader when a file was
    chosen on a slide; the index is fixed at that moment.  [result] is what
    the reader's [onload] receives. *)
Definition handleSlideImageChange (file : option jsstring)
    (presentation : Presentation) (v : Viewer) : Viewer :=
  match file, slideData presentation v with
  | Some result, Some _ =>
      let slideIdx := (currentSlideIndex v - 1)%nat in
      setCustomSlideImages (<[slideIdx := result]> (customSlideImages v)) v
  | _, _ => v
  end.

(** Lines 248-262. *)
Definition handleBackgroundChange (file : option jsstring) (v : Viewer) : Viewer :=
  match file with
  | Some result => setCustomBackground (Some result) v
  | None => v
  end.

Definition clearCustomBackground (v : Viewer) : Viewer := setCustomBackground None v.

(** The [src] of the image of slide [idx] on screen (lines 489 and 690). *)
Definition viewerImageSrc (v : Viewer) (idx : nat) (slide : Slide) : jsstring :=
  match customSlideImages v !! idx with
  | Some (c :: cs) => c :: cs
  | _ =>
      lit "https://picsum.photos/seed/"
      ++ match imageSeeds v !! idx with
         | Some (s :: ss) => s :: ss
         | _ => imageKeyword slide
         end
      ++ lit "/800/1200"
  end.

(** ** Manual edits (lines 288-317): the deck handed to [onUpdate] *)

Definition withMainTitle (p : Presentation) (t : jsstring) : Presentation :=
  {| mainTitle := t; subTitle := subTitle p; slides := slides p;
     includeImages := includeImages p |}.

Definition withSubTitle (p : Presentation) (t : option jsstring) : Presentation :=
  {| mainTitle := mainTitle p; subTitle := t; slides := slides p;
     includeImages := includeImages p |}.

Definition withSlides (p : Presentation) (l : list Slide) : Presentation :=
  {| mainTitle := mainTitle p; subTitle := subTitle p; slides := l;
     includeImages := includeImages p |}.

Definition updateMainTitle (presentation : Presentation) (newVal : jsstring)
    : Presentation :=
  withMainTitle presentation newVal.

Definition updateSubTitle (presentation : Presentation) (newVal : jsstring)
    : Presentation :=
  withSubTitle presentation (Some newVal).

(** [newSlides[currentSlideIndex - 1] = ...] writes inside the array: the
    guard on [slideData] has just read that very element. *)
Definition updateSlideTitle (presentation : Presentation) (v : Viewer)
    (newVal : jsstring) : option Presentation :=
  match slideData presentation v with
  | None => None
  | Some sd =>
      let newSlides :=
        <[(currentSlideIndex v - 1)%nat :=
            {| title := newVal; content := content sd;
               imageKeyword := imageKeyword sd; speakerNotes := speakerNotes sd |}]>
          (slides presentation) in
      Some (withSlides presentation newSlides)
  end.

Definition updateSpeakerNotes (presentation : Presentation) (v : Viewer)
    (newVal : jsstring) : option Presentation :=
  match slideData presentation v with
  | None => None
  | Some sd =>
      let newSlides :=
        <[(currentSlideIndex v - 1)%nat :=
            {| title := title sd; content := content sd;
               imageKeyword := imageKeyword sd; speakerNotes := Some newVal |}]>
          (slides presentation) in
      Some (withSlides presentation newSlides)
  end.

(** [EditableText], lines 32-37: the value [handleBlur] passes to
    [onChange], if it calls it. *)
Definition handleBlur (value tempValue : jsstring) : option jsstring :=
  if negb (strictEq (trim tempValue) value) then Some tempValue else None.

(** The deck [p'] is the deck [p] with the slide at [i] replaced by [s']
    and nothing else changed. *)
Definition edited (p p' : Presentation) (i : nat) (s' : Slide) : Prop :=
  mainTitle p' = mainTitle p ∧ subTitle p' = subTitle p
  ∧ includeImages p' = includeImages p
  ∧ length (slides p') = length (slides p)
  ∧ slides p' !! i = Some s'
  ∧ ∀ j, j ≠ i → slides p' !! j = slides p !! j.

(** ** Further observations on pages *)

(** The paragraphs of the bullet block of a page. *)
Definition page_bullets (page : PptxSlide) : list (list jsstring) :=
  omap (λ o, match o with
             | TextRunsObject runs _ => Some (run_text <$> runs)
             | _ => None
             end) (objects page).

(** The width of the bullet block of a page. *)
Definition page_bullet_width (page : PptxSlide) : list Coord :=
  omap (λ o, match o with
             | TextRunsObject _ opts => Some (tp_w opts)
             | _ => None
             end) (objects page).

(** The presenter notes of a page. *)
Definition page_notes (page : PptxSlide) : list jsstring :=
  omap (λ o, match o with NotesObject n => Some n | _ => None end) (objects page).

(** The requests an export makes for the slides from index [i] on: one for
    each slide without a custom image, in deck order. *)
Fixpoint expectedRequests (seeds custom : gmap nat jsstring) (i : nat)
    (todo : list Slide) : list jsstring :=
  match todo with
  | [] => []
  | slide :: rest =>
      (if truthy_opt (custom !! i) then []
       else [picsumUrl (slideSeed seeds i slide)])
      ++ expectedRequests seeds custom (S i) rest
  end.

(** An image the export may embed for some slide: an upload, or a data URI
    that declares an image. *)
Definition genuine (custom : gmap nat jsstring) (img : jsstring) : Prop :=
  (∃ i, custom !! i = Some img) ∨ startsWith img (lit "data:image") = true.

Section Handlers.

Variable env : Env.

(** The passes of the loop of [downloadPPTX] as a relation: the slides still
    to do from index [i], the pages they gave, the world before and after. *)
Inductive passes (p : Presentation) (th : Theme) (seeds custom : gmap nat jsstring)
    : nat → list Slide → World → list PptxSlide → World → Prop :=
  | passes_nil i w : passes p th seeds custom i [] w [] w
  | passes_cons i slide rest w page w1 pages w2 :
      contentSlide env p th seeds custom i slide w = Fulfilled page w1 →
      passes p th seeds custom (S i) rest w1 pages w2 →
      passes p th seeds custom i (slide :: rest) w (page :: pages) w2.

(** Lines 186-191: the viewer after [handleDownloadPPTX], and what became of
    the promise it awaits. *)
Definition handleDownloadPPTX (presentation : Presentation) (themeId : jsstring)
    (v : Viewer) (w : World) : Viewer * Outcome unit :=
  let v1 := setShowExportMenu false (setIsExporting true v) in
  match downloadPPTX env presentation (findTheme themeId) (imageSeeds v)
          (customBackground v) (customSlideImages v) w with
  | Fulfilled _ w' => (setIsExporting false v1, Fulfilled () w')
  | Rejected e w' => (v1, Rejected e w')
  | Pending w' => (v1, Pending w')
  end.

End Handlers.

(** ** Sanitization as the specification words it: the first character

    A character is a code point; outside the Basic Multilingual Plane it
    takes two code units, a surrogate pair. *)
Definition isHighSurrogate (c : N) : bool := inRange 0xD800 0xDBFF c.
Definition isLowSurrogate (c : N) : bool := inRange 0xDC00 0xDFFF c.

(** A string that starts with a surrogate pair. *)
Definition startsWithPair (s : jsstring) : bool :=
  match s with
  | hi :: lo :: _ => isHighSurrogate hi && isLowSurrogate lo
  | _ => false
  end.

(** The first code point of a string and the code units after it. *)
Definition firstCodePoint (s : jsstring) : option (N * jsstring) :=
  match s with
  | [] => None
  | [c] => Some (c, [])
  | hi :: lo :: r =>
      if isHighSurrogate hi && isLowSurrogate lo
      then Some (0x10000 + (hi - 0xD800) * 0x400 + (lo - 0xDC00), r)
      else Some (hi, lo :: r)
  end.

(** The code units of a code point. *)
Definition encodeCodePoint (cp : N) : jsstring :=
  if cp <? 0x10000 then [cp]
  else [0xD800 + (cp - 0x10000) / 0x400; 0xDC00 + (cp - 0x10000) mod 0x400].

(** The upper-case mapping of the code points above the Basic Multilingual
    Plane (Unicode 14.0: Deseret, Osage, Vithkuqi, Old Hungarian, Warang Citi,
    Medefaidrin, Adlam), rows as in [upper_simple]. *)
Definition upper_supplementary : list (N * N * N * N) :=
  [ (0x10428, 0x1044F, 1, 0x10400); (0x104D8, 0x104FB, 1, 0x104B0)
  ; (0x10597, 0x105A1, 1, 0x10570); (0x105A3, 0x105B1, 1, 0x1057C)
  ; (0x105B3, 0x105B9, 1, 0x1058C); (0x105BB, 0x105BC, 1, 0x10594)
  ; (0x10CC0, 0x10CF2, 1, 0x10C80); (0x118C0, 0x118DF, 1, 0x118A0)
  ; (0x16E60, 0x16E7F, 1, 0x16E40); (0x1E922, 0x1E943, 1, 0x1E900) ]%N.

(** Upper-casing of a character. *)
Definition upperCodePoint (cp : N) : list N :=
  if cp <? 0x10000 then upperUnit cp
  else match lookup_simple upper_supplementary cp with
       | Some u => [u]
       | None => [cp]
       end.

(** The text trimmed, with its first character upper-cased. *)
Definition capitalizeFirstCharacter (s : jsstring) : jsstring :=
  match firstCodePoint (trim s) with
  | None => []
  | Some (cp, r) => mjoin (encodeCodePoint <$> upperCodePoint cp) ++ r
  end.

(** The code units from [lo], [len] of them. *)
Definition unitsFrom (lo : N) (len : nat) : list N :=
  (λ k, lo + N.of_nat k) <$> seq 0 len.

(** Every unit of a range has the upper-case mapping [f] gives. *)
Definition upper_on (lo : N) (len : nat) (f : N → jsstring) : bool :=
  forallb (λ c, strictEq (upperUnit c) (f c)) (unitsFrom lo len).

(** The rows of the tables stay clear of the units from [lo] to [hi], and
    below [bound]. *)
Definition row_clear (lo hi : N) (row : N * N * N * N) : bool :=
  let '(first, last, _, _) := row in (last <? lo) || (hi <? first).

Definition key_clear (lo hi : N) (e : N * list N) : bool :=
  (e.1 <? lo) || (hi <? e.1).

Definition row_below (bound : N) (row : N * N * N * N) : bool :=
  let '(first, last, _, target) := row in
  (first <=? last) && (target + (last - first) <? bound).

Definition special_below (bound : N) (e : N * list N) : bool :=
  forallb (λ u, u <? bound) e.2.
Example sanitize_intro : sanitizeText (lit "  intro ") = lit "Intro".
Proof. reflexivity. Qed.

Example sanitize_cyrillic : sanitizeText (lit "ёлка") = lit "Ёлка".
Proof. reflexivity. Qed.

Example sanitize_eszett : sanitizeText (lit "ßa") = lit "SSa".
Proof. reflexivity. Qed.

(** * Properties *)

Arguments lit : simpl never.
Arguments upperUnit : simpl never.
Arguments sanitizeText : simpl never.

(** ** Strings *)

Lemma trimStart_split (s : jsstring) :
  ∃ l, s = l ++ trimStart s ∧ Forall blank l.
Proof.
  induction s as [|c r [l [Hr Hl]]]; simpl.
  - by exists [].
  - destruct (isWhiteSpace c) eqn:Hc.
    + exists (c :: l). split; [by rewrite Hr at 1 | by constructor].
    + by exists [].
Qed.

Lemma trimEnd_split (s : jsstring) :
  ∃ r, s = trimEnd s ++ r ∧ Forall blank r.
Proof.
  induction s as [|c s [r [Hs Hr]]]; simpl.
  - by exists [].
  - destruct (trimEnd s) as [|c' s'] eqn:Ht.
    + simpl in Hs. subst r. destruct (isWhiteSpace c) eqn:Hc.
      * exists (c :: s). split; [done | by constructor].
      * by exists s.
    + exists r. split; [by rewrite Hs at 1 | done].
Qed.

Lemma trimStart_head (s : jsstring) (c : N) :
  head (trimStart s) = Some c → inked c.
Proof.
  induction s as [|a r IH]; simpl; [done|].
  destruct (isWhiteSpace a) eqn:Ha; [done|].
  simpl. by intros [= <-].
Qed.

Lemma trimEnd_last (s : jsstring) (c : N) :
  last (trimEnd s) = Some c → inked c.
Proof.
  induction s as [|a r IH]; simpl; [done|].
  destruct (trimEnd r) as [|b r'] eqn:Hr.
  - destruct (isWhiteSpace a) eqn:Ha; [done|]. simpl. by intros [= <-].
  - rewrite last_cons_cons. apply IH.
Qed.

Lemma trimEnd_head (s : jsstring) (c : N) :
  head s = Some c → inked c → head (trimEnd s) = Some c.
Proof.
  destruct s as [|a r]; simpl; [done|]. intros [= ->] Hc.
  destruct (trimEnd r); [by rewrite Hc | done].
Qed.

Lemma trimStart_fixed (s : jsstring) :
  (∀ c, head s = Some c → inked c) → trimStart s = s.
Proof.
  destruct s as [|a r]; simpl; [done|]. intros H.
  by rewrite (H a eq_refl).
Qed.

Lemma trimEnd_fixed (s : jsstring) :
  (∀ c, last s = Some c → inked c) → trimEnd s = s.
Proof.
  induction s as [|a r IH]; simpl; [done|]. intros H.
  destruct r as [|b r'].
  - simpl. by rewrite (H a eq_refl).
  - rewrite IH; [done|]. intros c Hc. apply H. by rewrite last_cons, Hc.
Qed.

Lemma trim_split (s : jsstring) :
  ∃ l r, s = l ++ trim s ++ r ∧ Forall blank l ∧ Forall blank r.
Proof.
  destruct (trimStart_split s) as [l [Hl Fl]].
  destruct (trimEnd_split (trimStart s)) as [r [Hr Fr]].
  exists l, r. unfold trim. by rewrite <- Hr.
Qed.

Lemma trim_head (s : jsstring) (c : N) : head (trim s) = Some c → inked c.
Proof.
  unfold trim. intros H.
  destruct (trimStart s) as [|a r] eqn:Hs; [done|].
  assert (inked a) as Ha by (apply (trimStart_head s); by rewrite Hs).
  rewrite (trimEnd_head (a :: r) a eq_refl Ha) in H. by injection H as <-.
Qed.

Lemma trim_last (s : jsstring) (c : N) : last (trim s) = Some c → inked c.
Proof. apply trimEnd_last. Qed.

Lemma trim_fixed (s : jsstring) :
  (∀ c, head s = Some c → inked c) → (∀ c, last s = Some c → inked c) →
  trim s = s.
Proof.
  intros Hh Hl. unfold trim. rewrite trimStart_fixed by done.
  by apply trimEnd_fixed.
Qed.

Lemma trim_blank (s : jsstring) : Forall blank s → trim s = [].
Proof.
  unfold trim. induction 1 as [|c r Hc _ IH]; simpl; [done|].
  by rewrite Hc.
Qed.

(** ** Upper-casing: what the tables guarantee *)

Lemma upper_simple_ok : forallb row_ok upper_simple = true.
Proof. vm_compute. reflexivity. Qed.

Lemma upper_special_ok : forallb special_ok upper_special = true.
Proof. vm_compute. reflexivity. Qed.

Lemma lookup_simple_settled (t : list (N * N * N * N)) (c u : N) :
  forallb row_ok t = true → lookup_simple t c = Some u → settled u = true.
Proof.
  induction t as [|[[[f l] s] tg] t IH]; simpl; [done|].
  intros [Hrow Ht]%andb_prop.
  destruct ((f <=? c) && (c <=? l) && ((c - f) mod s =? 0)) eqn:Hin; [|by apply IH].
  intros [= <-]. apply andb_prop in Hrow as [Hs Hrow]. simpl in Hs.
  apply andb_prop in Hin as [[Hf Hl]%andb_prop Hm].
  apply N.ltb_lt in Hs. apply N.leb_le in Hf, Hl. apply N.eqb_eq in Hm.
  rewrite forallb_forall in Hrow. apply Hrow. unfold row_targets.
  apply in_map_iff. exists (N.to_nat ((c - f) / s)). split.
  - rewrite N2Nat.id. f_equal.
    rewrite N.mul_comm. symmetry. apply N.Div0.div_exact. done.
  - apply in_seq.
    assert ((c - f) / s ≤ (l - f) / s) as Hq by (apply N.Div0.div_le_mono; lia).
    revert Hq. generalize ((c - f) / s) ((l - f) / s). lia.
Qed.

Lemma lookup_special_ok (t : list (N * list N)) (c : N) (v : list N) :
  forallb special_ok t = true → lookup_special t c = Some v →
  special_ok (c, v) = true.
Proof.
  induction t as [|[k w] t IH]; simpl; [done|].
  intros [Hk Ht]%andb_prop. destruct (k =? c); [|by apply IH].
  by intros [= <-].
Qed.

Lemma settled_spec (d : N) : settled d = true → upperUnit d = [d] ∧ inked d.
Proof.
  unfold settled, inked. intros [Hw Hu]%andb_prop.
  destruct (isWhiteSpace d); [done|]. split; [|done].
  destruct (upperUnit d) as [|d' [|? ?]]; try done.
  apply N.eqb_eq in Hu. by subst.
Qed.

Lemma upperUnit_shape (c : N) :
  ∃ d u, upperUnit c = d :: u ∧ upperUnit d = [d]
         ∧ (inked c → Forall inked (d :: u)).
Proof.
  unfold upperUnit at 1.
  destruct (lookup_special upper_special c) as [v|] eqn:Hsp.
  - apply (lookup_special_ok _ _ _ upper_special_ok) in Hsp.
    unfold special_ok in Hsp. simpl in Hsp. destruct v as [|d u]; [done|].
    apply andb_prop in Hsp as [[Hd Hi]%settled_spec Hu].
    exists d, u. split; [done|]. split; [done|]. intros _.
    constructor; [done|]. rewrite forallb_forall in Hu.
    apply Forall_forall. intros x Hx%list_elem_of_In. specialize (Hu x Hx).
    unfold inked. by destruct (isWhiteSpace x).
  - destruct (lookup_simple upper_simple c) as [d|] eqn:Hsi.
    + apply (lookup_simple_settled _ _ _ upper_simple_ok) in Hsi.
      apply settled_spec in Hsi as [Hd Hi].
      exists d, []. split; [done|]. split; [done|]. intros _. by constructor.
    + exists c, []. split; [done|]. split.
      * unfold upperUnit. by rewrite Hsp, Hsi.
      * intros Hc. by constructor.
Qed.

(** [sanitizeText] in one equation. *)
Lemma sanitizeText_eq (s : jsstring) :
  sanitizeText s = match trim s with
                   | [] => []
                   | c :: r => upperUnit c ++ r
                   end.
Proof.
  unfold sanitizeText. destruct s as [|a s']; [done|]. simpl negb. cbv iota.
  destruct (trim (a :: s')) as [|c r]; [done|].
  unfold toUpperCase, charAt, slice. simpl. by rewrite app_nil_r.
Qed.

Lemma lookup_simple_clear (t : list (N * N * N * N)) (lo hi c : N) :
  forallb (row_clear lo hi) t = true → lo ≤ c ≤ hi → lookup_simple t c = None.
Proof.
  intros Ht Hc. induction t as [|[[[f l] s] tg] t IH]; simpl in *; [done|].
  apply andb_prop in Ht as [Hrow Ht].
  replace ((f <=? c) && (c <=? l)) with false; [by apply IH|].
  symmetry. apply andb_false_iff.
  apply orb_prop in Hrow as [Hl%N.ltb_lt|Hf%N.ltb_lt].
  - right. apply N.leb_gt. lia.
  - left. apply N.leb_gt. lia.
Qed.

Lemma lookup_special_clear (t : list (N * list N)) (lo hi c : N) :
  forallb (key_clear lo hi) t = true → lo ≤ c ≤ hi → lookup_special t c = None.
Proof.
  intros Ht Hc. induction t as [|[k v] t IH]; simpl in *; [done|].
  apply andb_prop in Ht as [Hk Ht]. unfold key_clear in Hk. simpl in Hk.
  replace (k =? c) with false; [by apply IH|].
  symmetry. apply N.eqb_neq.
  apply orb_prop in Hk as [Hl%N.ltb_lt|Hf%N.ltb_lt]; lia.
Qed.

(** A surrogate has no upper-case mapping. *)
Lemma upperUnit_surrogate (c : N) : 0xD800 ≤ c ≤ 0xDFFF → upperUnit c = [c].
Proof.
  intros Hc. unfold upperUnit.
  rewrite (lookup_special_clear _ 0xD800 0xDFFF) by (done || by vm_compute).
  by rewrite (lookup_simple_clear _ 0xD800 0xDFFF) by (done || by vm_compute).
Qed.

Lemma lookup_simple_below (t : list (N * N * N * N)) (bound c u : N) :
  forallb (row_below bound) t = true → lookup_simple t c = Some u → u < bound.
Proof.
  induction t as [|[[[f l] s] tg] t IH]; simpl; [done|].
  intros [Hrow Ht]%andb_prop.
  destruct ((f <=? c) && (c <=? l) && ((c - f) mod s =? 0)) eqn:Hin; [|by apply IH].
  intros [= <-]. apply andb_prop in Hin as [[Hf Hl]%andb_prop _].
  apply andb_prop in Hrow as [_ Hb]. apply N.leb_le in Hf, Hl. apply N.ltb_lt in Hb.
  lia.
Qed.

Lemma lookup_special_below (t : list (N * list N)) (bound c : N) (v : list N) :
  forallb (special_below bound) t = true → lookup_special t c = Some v →
  Forall (λ u, u < bound) v.
Proof.
  induction t as [|[k w] t IH]; simpl; [done|].
  intros [Hk Ht]%andb_prop. destruct (k =? c); [|by apply IH].
  intros [= <-]. unfold special_below in Hk. simpl in Hk.
  rewrite forallb_forall in Hk. apply Forall_forall.
  intros u Hu%list_elem_of_In. by apply N.ltb_lt, Hk.
Qed.

(** The upper-case mapping of a unit of the Basic Multilingual Plane stays in
    that plane. *)
Lemma upperUnit_bmp (c : N) : c < 0x10000 → Forall (λ u, u < 0x10000) (upperUnit c).
Proof.
  intros Hc. unfold upperUnit.
  destruct (lookup_special upper_special c) as [v|] eqn:Hsp.
  - eapply lookup_special_below; [|exact Hsp]. by vm_compute.
  - destruct (lookup_simple upper_simple c) as [u|] eqn:Hsi.
    + constructor; [|constructor].
      eapply lookup_simple_below; [|exact Hsi]. by vm_compute.
    + by repeat constructor.
Qed.

Lemma encode_bmp (l : list N) :
  Forall (λ u, u < 0x10000) l → mjoin (encodeCodePoint <$> l) = l.
Proof.
  induction 1 as [|u l Hu _ IH]; [done|]. simpl. unfold encodeCodePoint at 1.
  replace (u <? 0x10000) with true by (symmetry; by apply N.ltb_lt).
  simpl. by f_equal.
Qed.

Lemma upper_on_spec (lo : N) (len : nat) (f : N → jsstring) :
  upper_on lo len f = true →
  ∀ c, lo ≤ c < lo + N.of_nat len → toUpperCase [c] = f c.
Proof.
  unfold upper_on, unitsFrom. intros Hall c Hc. rewrite forallb_forall in Hall.
  unfold toUpperCase. simpl. rewrite app_nil_r.
  assert (strictEq (upperUnit c) (f c) = true) as Heq.
  { apply Hall. apply in_map_iff. exists (N.to_nat (c - lo)).
    split; [lia | apply in_seq; lia]. }
  clear -Heq. revert Heq. generalize (upperUnit c) (f c).
  intros a. induction a as [|x a IH]; intros [|y b]; simpl; try done.
  intros [->%N.eqb_eq Hab]%andb_prop. f_equal. by apply IH.
Qed.


(** C5.  Sanitization is idempotent. *)
Theorem sanitizeText_idempotent (s : jsstring) :
  sanitizeText (sanitizeText s) = sanitizeText s.
Proof.
  rewrite (sanitizeText_eq s).
  destruct (trim s) as [|c r] eqn:Ht; [done|].
  destruct (upperUnit_shape c) as (d & u & Hu & Hd & Hink).
  assert (inked c) as Hc by (apply (trim_head s); by rewrite Ht).
  specialize (Hink Hc). rewrite Hu. simpl.
  rewrite sanitizeText_eq, trim_fixed.
  - by rewrite Hd.
  - intros x [= <-]. by inversion Hink.
  - intros x Hx. change (d :: u ++ r) with ((d :: u) ++ r) in Hx.
    destruct r as [|b r'] using rev_ind.
    + rewrite app_nil_r in Hx. apply last_Some_elem_of in Hx.
      rewrite Forall_forall in Hink. by apply Hink.
    + rewrite app_assoc, last_snoc in Hx. injection Hx as <-.
      apply (trim_last s). rewrite Ht.
      change (c :: r' ++ [b]) with ((c :: r') ++ [b]). by rewrite last_snoc.
Qed.

(** ** The file name *)

Example safeTitle_example :
  safeTitle (titled (lit "Моя Тема 2024!!!")) = lit "Моя Тема 2024".
Proof. reflexivity. Qed.

Example safeTitle_default : safeTitle (titled (lit "?!*")) = lit "Presentation".
Proof. reflexivity. Qed.

Lemma unsafeChar_allowed (c : N) : unsafeChar c = false ↔ allowed c.
Proof.
  unfold unsafeChar, allowed, inRange. rewrite negb_false_iff.
  rewrite !orb_true_iff, !andb_true_iff, !N.leb_le, N.eqb_eq. tauto.
Qed.

Lemma replaceAll_filter (class : N → bool) (s : jsstring) :
  replaceAll class [] s = List.filter (λ c, negb (class c)) s.
Proof.
  induction s as [|c r IH]; simpl; [done|].
  destruct (class c); simpl; by rewrite IH.
Qed.

Lemma truthy_length (s : jsstring) : truthy s = true ↔ (0 < length s)%nat.
Proof. destruct s; simpl; split; (done || lia). Qed.

(** ** The image fetch *)

Local Opaque timeoutMs.

Ltac unfold_async :=
  unfold mbind, Async_bind, mret, Async_ret, try_catch, throw, console_warn,
    console_error_at, console_error, alert, setTimeout in *.

Ltac resolved :=
  intros; eexists; split; [reflexivity | first [done | simpl; intros; lia]].

Lemma same_outside_refl (w : World) : same_outside w w.
Proof. repeat split. exists []. by rewrite app_nil_r. Qed.

Lemma same_outside_trans (w1 w2 w3 : World) :
  same_outside w1 w2 → same_outside w2 w3 → same_outside w1 w3.
Proof.
  unfold same_outside. intros (?&?&?&?&l1&Hl1&?) (?&?&?&?&l2&Hl2&?).
  repeat split; try congruence.
  exists (l1 ++ l2). rewrite Hl2, Hl1, app_assoc. split; [done|].
  by apply Forall_app.
Qed.

Lemma same_outside_log (w w' : World) (l : LogEntry) :
  same_outside w w' → image_log l → same_outside w (with_log l w').
Proof.
  intros (?&?&?&?&l1&Hl1&?) Hl. repeat split; try done.
  exists (l1 ++ [l]). simpl. rewrite Hl1, app_assoc. split; [done|].
  apply Forall_app. split; [done|]. by constructor.
Qed.

Lemma same_outside_time (w w' : World) (t : nat) :
  same_outside w w' → same_outside w (at_time t w').
Proof. by intros (?&?&?&?&?). Qed.

Lemma same_outside_request (w w' : World) (url : jsstring) :
  same_outside w w' → same_outside w (with_request url w').
Proof. by intros (?&?&?&?&?). Qed.

Ltac framed :=
  split; [| split; [done | simpl; lia]];
  repeat first [ apply same_outside_log; [|done]
               | apply same_outside_time
               | apply same_outside_request ];
  assumption.

Lemma aborted_before_spec (d t : nat) :
  aborted_before (Some d) t = if (d <=? t)%nat then Some d else None.
Proof. done. Qed.

(** Whatever the network does, a fetch issues exactly one request and touches
    neither the deck, the alerts nor the files. *)
Lemma getBase64FromUrl_frame (env : Env) (url : jsstring) (w : World) :
  match getBase64FromUrl env url w with
  | Fulfilled _ w' | Rejected _ w' | Pending w' =>
      same_outside w w' ∧ requests w' = requests w ++ [url] ∧ (now w ≤ now w')%nat
  end.
Proof.
  pose proof (same_outside_refl w) as Hw.
  unfold getBase64FromUrl, fetch, blob, readAsDataURL. unfold_async. simpl.
  destruct (net env (length (requests w)) url) as [dt ok bd|dt|]; simpl.
  - destruct (now w + timeoutMs <=? now w + dt)%nat eqn:Hd; simpl; [framed|].
    destruct ok; simpl; [|framed].
    destruct bd as [dt2 [[r|]|]|dt2|]; simpl; try framed.
    destruct (truthy r && startsWith r (lit "data:image")); framed.
  - destruct (now w + timeoutMs <=? now w + dt)%nat; simpl; framed.
  - framed.
Qed.

(** A fetch rejects only through the reader, and stays pending only when the
    body of a successful response stalls. *)
Lemma getBase64FromUrl_rejected (env : Env) (url : jsstring) (w w' : World) (e : JsError) :
  getBase64FromUrl env url w = Rejected e w' →
  ∃ dt dt2, net env (length (requests w)) url = Responds dt true (BodyArrives dt2 ReaderErrors).
Proof.
  unfold getBase64FromUrl, fetch, blob, readAsDataURL. unfold_async. simpl.
  destruct (net env (length (requests w)) url) as [dt ok bd|dt|]; simpl.
  - destruct (now w + timeoutMs <=? now w + dt)%nat eqn:Hd; simpl; [done|].
    destruct ok; simpl; [|done].
    destruct bd as [dt2 [[r|]|]|dt2|]; simpl; try done.
    + by destruct (truthy r && startsWith r (lit "data:image")).
    + intros _. by exists dt, dt2.
  - by destruct (now w + timeoutMs <=? now w + dt)%nat.
  - done.
Qed.

Lemma getBase64FromUrl_pending (env : Env) (url : jsstring) (w w' : World) :
  getBase64FromUrl env url w = Pending w' →
  ∃ dt, net env (length (requests w)) url = Responds dt true BodyStalls.
Proof.
  unfold getBase64FromUrl, fetch, blob, readAsDataURL. unfold_async. simpl.
  destruct (net env (length (requests w)) url) as [dt ok bd|dt|]; simpl.
  - destruct (now w + timeoutMs <=? now w + dt)%nat eqn:Hd; simpl; [done|].
    destruct ok; simpl; [|done].
    destruct bd as [dt2 [[r|]|]|dt2|]; simpl; try done.
    + by destruct (truthy r && startsWith r (lit "data:image")).
    + intros _. by exists dt.
  - by destruct (now w + timeoutMs <=? now w + dt)%nat.
  - done.
Qed.

(** Each failure of the fetch policy resolves to the empty string, a timeout
    exactly timeoutMs ms after the fetch began. *)
Lemma getBase64FromUrl_fails (env : Env) (url : jsstring) (w : World) :
  fetch_fails (net env (length (requests w)) url) = true →
  ∃ w', getBase64FromUrl env url w = Fulfilled [] w'
        ∧ (timed_out (net env (length (requests w)) url) = true →
           now w' = (now w + timeoutMs)%nat).
Proof.
  unfold getBase64FromUrl, fetch, blob, readAsDataURL. unfold_async. simpl.
  destruct (net env (length (requests w)) url) as [dt ok bd|dt|];
    unfold fetch_fails; simpl.
  - destruct (timeoutMs <=? dt)%nat eqn:Hd.
    + replace (now w + timeoutMs <=? now w + dt)%nat with true
        by (symmetry; apply Nat.leb_le; apply Nat.leb_le in Hd; lia).
      simpl. resolved.
    + replace (now w + timeoutMs <=? now w + dt)%nat with false
        by (symmetry; apply Nat.leb_gt; apply Nat.leb_gt in Hd; lia).
      simpl. destruct ok; simpl; [|resolved].
      destruct bd as [dt2 [[r|]|]|dt2|]; simpl; try done; try resolved.
      intros ->%negb_true_iff. rewrite andb_false_r. resolved.
  - destruct (timeoutMs <=? dt)%nat eqn:Hd.
    + replace (now w + timeoutMs <=? now w + dt)%nat with true
        by (symmetry; apply Nat.leb_le; apply Nat.leb_le in Hd; lia).
      simpl. resolved.
    + replace (now w + timeoutMs <=? now w + dt)%nat with false
        by (symmetry; apply Nat.leb_gt; apply Nat.leb_gt in Hd; lia).
      simpl. resolved.
  - resolved.
Qed.

(** A fetch that resolves to a non-empty string resolves to an image the
    reader produced. *)
Lemma getBase64FromUrl_image (env : Env) (url f : jsstring) (w w' : World) :
  getBase64FromUrl env url w = Fulfilled f w' → truthy f = true →
  ∃ dt dt2, net env (length (requests w)) url
            = Responds dt true (BodyArrives dt2 (ReaderLoads (Some f)))
            ∧ (dt < timeoutMs)%nat ∧ startsWith f (lit "data:image") = true.
Proof.
  unfold getBase64FromUrl, fetch, blob, readAsDataURL. unfold_async. simpl.
  destruct (net env (length (requests w)) url) as [dt ok bd|dt|]; simpl.
  - destruct (now w + timeoutMs <=? now w + dt)%nat eqn:Hd; simpl.
    { by intros [= <- _]. }
    apply Nat.leb_gt in Hd.
    destruct ok; simpl; [|by intros [= <- _]].
    destruct bd as [dt2 [[r|]|]|dt2|]; simpl; try done; try by intros [= <- _].
    destruct (truthy r && startsWith r (lit "data:image")) eqn:Hr.
    + intros [= <- _] _. apply andb_prop in Hr as [_ Hr].
      exists dt, dt2. repeat split; (done || lia).
    + by intros [= <- _].
  - destruct (now w + timeoutMs <=? now w + dt)%nat; simpl; by intros [= <- _].
  - by intros [= <- _].
Qed.

(** ** One slide *)

Lemma slideImage_custom (env : Env) (seeds custom : gmap nat jsstring)
    (i : nat) (slide : Slide) (w : World) :
  truthy_opt (custom !! i) = true →
  slideImage env seeds custom i slide w = Fulfilled (custom !! i) w.
Proof. unfold slideImage. by intros ->. Qed.

Lemma slideImage_fetch (env : Env) (seeds custom : gmap nat jsstring)
    (i : nat) (slide : Slide) (w : World) :
  truthy_opt (custom !! i) = false →
  slideImage env seeds custom i slide w
  = match getBase64FromUrl env (picsumUrl (slideSeed seeds i slide)) w with
    | Fulfilled f w' => Fulfilled (if truthy f then Some f else custom !! i) w'
    | Rejected e w' =>
        Fulfilled (custom !! i)
          (with_log (ConsoleErrorAt (lit "Error fetching image for slide") i e) w')
    | Pending w' => Pending w'
    end.
Proof.
  unfold slideImage, slideSeed, picsumUrl. intros ->. simpl. unfold_async.
  replace (match seeds !! i with
           | Some s => if truthy s then s else imageKeyword slide
           | None => imageKeyword slide
           end)
    with (if truthy_opt (seeds !! i) then default [] (seeds !! i)
          else imageKeyword slide)
    by (destruct (seeds !! i) as [s|]; simpl; [by destruct (truthy s)|done]).
  destruct (getBase64FromUrl env _ w) as [f w'|e w'|w']; try done.
  by destruct (truthy f).
Qed.

Lemma slideImage_run (env : Env) (seeds custom : gmap nat jsstring)
    (i : nat) (slide : Slide) (w : World) :
  match slideImage env seeds custom i slide w with
  | Fulfilled _ w' => same_outside w w'
  | Rejected _ _ => False
  | Pending w' => same_outside w w' ∧ body_stalls env
  end.
Proof.
  destruct (truthy_opt (custom !! i)) eqn:Hc.
  - rewrite slideImage_custom by done. apply same_outside_refl.
  - rewrite slideImage_fetch by done.
    pose proof (getBase64FromUrl_frame env (picsumUrl (slideSeed seeds i slide)) w) as Hf.
    destruct (getBase64FromUrl env _ w) as [f w'|e w'|w'] eqn:Hg.
    + tauto.
    + apply same_outside_log; [tauto | done].
    + split; [tauto|]. apply getBase64FromUrl_pending in Hg as [dt Hg].
      by eexists _, _, _.
Qed.

Lemma contentSlide_run (env : Env) (p : Presentation) (th : Theme)
    (seeds custom : gmap nat jsstring) (i : nat) (slide : Slide) (w : World) :
  match contentSlide env p th seeds custom i slide w with
  | Fulfilled page w' =>
      renders slide page
      ∧ if includeImages p
        then ∃ o, slideImage env seeds custom i slide w = Fulfilled o w'
                  ∧ page_images page = embedded o
        else w' = w ∧ page_images page = []
  | Rejected _ _ => False
  | Pending w' =>
      includeImages p = true ∧ slideImage env seeds custom i slide w = Pending w'
  end.
Proof.
  unfold contentSlide. unfold_async. destruct (includeImages p).
  - pose proof (slideImage_run env seeds custom i slide w) as Hr.
    destruct (slideImage env seeds custom i slide w) as [o w'|e w'|w']; try done.
    destruct o as [data|]; [destruct (truthy data) eqn:Hd|];
      (split; [done|]); eexists; (split; [done|]);
      unfold page_images, embedded; simpl; rewrite ?Hd;
      destruct (speakerNotes slide) as [n|]; try done; by destruct (truthy n).
  - split; [done|]. split; [done|].
    unfold page_images. simpl.
    destruct (speakerNotes slide) as [n|]; try done; by destruct (truthy n).
Qed.

(** ** The loop and the whole export *)

Lemma contentSlides_run (env : Env) (p : Presentation) (th : Theme)
    (seeds custom : gmap nat jsstring) (todo : list Slide) :
  ∀ (i : nat) (pres : PptxGen) (w : World),
    match contentSlides env p th seeds custom i todo pres w with
    | Fulfilled pres' w' =>
        ∃ pages,
          pres' = {| pres_title := pres_title pres; pres_author := pres_author pres;
                     pres_masters := pres_masters pres;
                     pres_slides := pres_slides pres ++ pages |}
          ∧ Forall2 renders todo pages
          ∧ same_outside w w'
          ∧ (includeImages p = false → w' = w)
    | Rejected _ _ => False
    | Pending w' => same_outside w w' ∧ includeImages p = true ∧ body_stalls env
    end.
Proof.
  induction todo as [|slide rest IH]; intros i pres w; simpl.
  - exists []. rewrite app_nil_r. destruct pres.
    split; [done|]. split; [constructor|]. split; [apply same_outside_refl|done].
  - unfold mbind, Async_bind.
    pose proof (contentSlide_run env p th seeds custom i slide w) as Hs.
    destruct (contentSlide env p th seeds custom i slide w) as [page w1|e w1|w1];
      [|done|].
    + destruct Hs as [Hpage Himg].
      assert (same_outside w w1 ∧ (includeImages p = false → w1 = w)) as [Hout Hsame].
      { destruct (includeImages p).
        - destruct Himg as [o [Ho _]].
          pose proof (slideImage_run env seeds custom i slide w) as Hr.
          rewrite Ho in Hr. done.
        - destruct Himg as [-> _]. split; [apply same_outside_refl|done]. }
      specialize (IH (S i) (addSlide pres page) w1).
      destruct (contentSlides env p th seeds custom (S i) rest (addSlide pres page) w1)
        as [pres' w'|e w'|w']; [|done|].
      * destruct IH as (pages & -> & Hpages & Hout' & Hsame').
        exists (page :: pages). simpl. rewrite <- app_assoc. simpl.
        split; [done|]. split; [by constructor|].
        split; [by eapply same_outside_trans|].
        intros Hf. rewrite Hsame' by done. by apply Hsame.
      * destruct IH as (Hout' & Hinc & Hstall).
        split; [by eapply same_outside_trans|done].
    + destruct Hs as [Hinc Hp].
      pose proof (slideImage_run env seeds custom i slide w) as Hr.
      rewrite Hp in Hr. destruct Hr as [Hout Hstall]. done.
Qed.

(** The document the export hands to [writeFile]. *)
Lemma downloadPPTX_run (env : Env) (p : Presentation) (th : Theme)
    (seeds : gmap nat jsstring) (bgi : option jsstring) (custom : gmap nat jsstring)
    (w : World) :
  match downloadPPTX env p th seeds bgi custom w with
  | Fulfilled _ w' =>
      ∃ pages w1,
        let doc := {| pres_title := mainTitle p; pres_author := lit "FlowerSlide AI";
                      pres_masters := [masterSlide th bgi];
                      pres_slides := coverSlide p th :: pages |} in
        let fileName := safeTitle p ++ lit ".pptx" in
        Forall2 renders (slides p) pages
        ∧ same_outside w w1
        ∧ (includeImages p = false → w1 = w)
        ∧ w' = match disk env fileName doc with
               | WriteSucceeds => with_file (fileName, doc) (with_write (fileName, doc) w1)
               | WriteFails code =>
                   with_alert saveErrorMessage
                     (with_log (ConsoleError (lit "PPTX Generation Error:") (WriteFailed code))
                        (with_write (fileName, doc) w1))
               end
  | Rejected _ _ => False
  | Pending w' =>
      same_outside w w' ∧ includeImages p = true ∧ slides p ≠ [] ∧ body_stalls env
  end.
Proof.
  unfold downloadPPTX. unfold mbind at 1. unfold Async_bind at 1.
  match goal with |- context [contentSlides _ _ _ _ _ 0 _ ?pres w] =>
    pose proof (contentSlides_run env p th seeds custom (slides p) 0 pres w) as Hr;
    destruct (contentSlides env p th seeds custom 0 (slides p) pres w)
      as [pres' w1|e w1|w1] eqn:Hrun
  end; [|done|].
  - destruct Hr as (pages & -> & Hpages & Hout & Hsame). simpl.
    unfold try_catch, writeFile. unfold_async.
    destruct (disk env _ _) eqn:Hdisk; exists pages, w1; simpl; by rewrite Hdisk.
  - destruct Hr as (Hout & Hinc & Hstall). repeat split; try done; try apply Hout.
    intros Hnil. rewrite Hnil in Hrun. done.
Qed.

(** ** The claims about the export *)

Lemma contentSlide_images (env : Env) (p : Presentation) (th : Theme)
    (seeds custom : gmap nat jsstring) (i : nat) (slide : Slide) (w : World) :
  includeImages p = true →
  match slideImage env seeds custom i slide w with
  | Fulfilled o w' =>
      ∃ page, contentSlide env p th seeds custom i slide w = Fulfilled page w'
              ∧ page_images page = embedded o
  | Rejected _ _ => False
  | Pending w' => contentSlide env p th seeds custom i slide w = Pending w'
  end.
Proof.
  intros Hinc.
  pose proof (contentSlide_run env p th seeds custom i slide w) as Hr.
  pose proof (slideImage_run env seeds custom i slide w) as Hs.
  destruct (contentSlide env p th seeds custom i slide w) as [page w1|e w1|w1];
    [|done|].
  - destruct Hr as [_ Hr]. rewrite Hinc in Hr. destruct Hr as (o & -> & Himg).
    by exists page.
  - destruct Hr as [_ ->]. done.
Qed.

Lemma downloadPPTX_not_rejected (env : Env) (p : Presentation) (th : Theme)
    (seeds : gmap nat jsstring) (bgi : option jsstring) (custom : gmap nat jsstring)
    (w w' : World) (e : JsError) :
  downloadPPTX env p th seeds bgi custom w ≠ Rejected e w'.
Proof.
  intros H. pose proof (downloadPPTX_run env p th seeds bgi custom w) as Hr.
  by rewrite H in Hr.
Qed.

(** C1 (amended).  For a slide without a custom image, when the request
    fails in one of the ways of the fetch policy (no answer within the 4-second
    timer, non-2xx status, network error before the response or while the
    body is read, a data URI that does not start with [data:image]), the
    fetch resolves to the empty string, on timeout exactly [timeoutMs] after
    it began; the page of the slide carries no image; and no failure of an
    image fetch makes the export reject. *)
Theorem image_fetch_degrades (env : Env) (p : Presentation) (th : Theme)
    (seeds custom : gmap nat jsstring) (i : nat) (slide : Slide) (w : World) :
  includeImages p = true →
  truthy_opt (custom !! i) = false →
  fetch_fails (net env (length (requests w)) (picsumUrl (slideSeed seeds i slide))) = true →
  ∃ w', getBase64FromUrl env (picsumUrl (slideSeed seeds i slide)) w = Fulfilled [] w'
        ∧ (timed_out (net env (length (requests w)) (picsumUrl (slideSeed seeds i slide)))
           = true → now w' = (now w + timeoutMs)%nat)
        ∧ (∃ page, contentSlide env p th seeds custom i slide w = Fulfilled page w'
                   ∧ page_images page = [])
        ∧ (∀ bgi w0 e w1, downloadPPTX env p th seeds bgi custom w0 ≠ Rejected e w1).
Proof.
  intros Hinc Hcustom Hfail.
  destruct (getBase64FromUrl_fails env _ w Hfail) as (w' & Hget & Htime).
  exists w'. split; [done|]. split; [done|]. split.
  - pose proof (contentSlide_images env p th seeds custom i slide w Hinc) as Hc.
    rewrite slideImage_fetch, Hget in Hc by done. simpl in Hc.
    destruct Hc as (page & Hpage & Himg). exists page. split; [done|].
    rewrite Himg. unfold embedded. by rewrite Hcustom.
  - intros bgi w0 e w1. apply downloadPPTX_not_rejected.
Qed.

(** C2.  With images enabled, the image of slide [i] is the custom image
    when one is supplied, and then no request is made whatever the network
    could deliver; otherwise one request goes to the URL seeded by
    [imageSeeds[i]] when supplied and by the slide's keyword when not, and the
    page embeds what the fetch resolved to, or no image when it resolved to
    nothing or was rejected. *)
Theorem image_precedence (env : Env) (p : Presentation) (th : Theme)
    (seeds custom : gmap nat jsstring) (i : nat) (slide : Slide) (w : World) :
  includeImages p = true →
  let seed := match seeds !! i with
              | Some s => if truthy s then s else imageKeyword slide
              | None => imageKeyword slide
              end in
  match custom !! i with
  | Some (c :: cs) =>
      ∃ page, contentSlide env p th seeds custom i slide w = Fulfilled page w
              ∧ page_images page = [c :: cs]
  | _ =>
      match getBase64FromUrl env (picsumUrl seed) w with
      | Fulfilled f w' =>
          requests w' = requests w ++ [picsumUrl seed]
          ∧ ∃ page, contentSlide env p th seeds custom i slide w = Fulfilled page w'
                    ∧ page_images page = if truthy f then [f] else []
      | Rejected e w' =>
          requests w' = requests w ++ [picsumUrl seed]
          ∧ ∃ page,
              contentSlide env p th seeds custom i slide w
              = Fulfilled page
                  (with_log (ConsoleErrorAt (lit "Error fetching image for slide") i e) w')
              ∧ page_images page = []
      | Pending w' => contentSlide env p th seeds custom i slide w = Pending w'
      end
  end.
Proof.
  intros Hinc seed.
  assert (seed = slideSeed seeds i slide) as ->.
  { unfold seed, slideSeed. destruct (seeds !! i) as [s|]; simpl; [|done].
    by destruct (truthy s). }
  pose proof (contentSlide_images env p th seeds custom i slide w Hinc) as Hc.
  pose proof (getBase64FromUrl_frame env (picsumUrl (slideSeed seeds i slide)) w) as Hf.
  destruct (custom !! i) as [[|c cs]|] eqn:Hcustom.
  - rewrite slideImage_fetch in Hc by (by rewrite Hcustom).
    destruct (getBase64FromUrl env _ w) as [f w'|e w'|w']; [| |done].
    + split; [tauto|]. destruct Hc as (page & Hpage & Himg). exists page.
      split; [done|]. rewrite Himg. unfold embedded. destruct (truthy f) eqn:Hf'; simpl.
      * by rewrite Hf'.
      * by rewrite Hcustom.
    + split; [tauto|]. destruct Hc as (page & Hpage & Himg).
      exists page. split; [done|]. rewrite Himg, Hcustom. done.
  - rewrite slideImage_custom in Hc by (by rewrite Hcustom).
    by rewrite Hcustom in Hc.
  - rewrite slideImage_fetch in Hc by (by rewrite Hcustom).
    destruct (getBase64FromUrl env _ w) as [f w'|e w'|w']; [| |done].
    + split; [tauto|]. destruct Hc as (page & Hpage & Himg). exists page.
      split; [done|]. rewrite Himg. unfold embedded. destruct (truthy f) eqn:Hf'; simpl.
      * by rewrite Hf'.
      * by rewrite Hcustom.
    + split; [tauto|]. destruct Hc as (page & Hpage & Himg).
      exists page. split; [done|]. rewrite Himg, Hcustom. done.
Qed.

(** C3.  An export that completes hands exactly one document to [writeFile];
    it has one page more than the deck has slides: the cover first, then a
    page per slide in deck order, each with the master layout and the slide's
    sanitized title; a deck without slides gives the cover alone.  The export
    never rejects, and it stays pending only when images are enabled, there
    is a slide, and the body of some successful response never completes. *)
Theorem export_page_count (env : Env) (p : Presentation) (th : Theme)
    (seeds : gmap nat jsstring) (bgi : option jsstring) (custom : gmap nat jsstring)
    (w : World) :
  match downloadPPTX env p th seeds bgi custom w with
  | Fulfilled _ w' =>
      ∃ fileName doc,
        writes w' = writes w ++ [(fileName, doc)]
        ∧ length (pres_slides doc) = S (length (slides p))
        ∧ head (pres_slides doc) = Some (coverSlide p th)
        ∧ page_title (coverSlide p th) = Some (sanitizeText (mainTitle p))
        ∧ Forall2 renders (slides p) (drop 1 (pres_slides doc))
        ∧ match slides p with
          | [] => pres_slides doc = [coverSlide p th]
          | _ :: _ => True
          end
  | Rejected _ _ => False
  | Pending _ => includeImages p = true ∧ slides p ≠ [] ∧ body_stalls env
  end.
Proof.
  pose proof (downloadPPTX_run env p th seeds bgi custom w) as Hr.
  destruct (downloadPPTX env p th seeds bgi custom w) as [u w'|e w'|w']; [|done|tauto].
  destruct Hr as (pages & w1 & Hpages & Hout & _ & ->).
  destruct Hout as (_ & _ & Hwrites & _).
  eexists _, _. split.
  { destruct (disk env _ _); simpl; by rewrite Hwrites. }
  simpl. split; [by rewrite (Forall2_length _ _ _ Hpages)|].
  split; [done|]. split; [done|]. split; [by rewrite drop_0|].
  destruct (slides p); [|done]. by inversion Hpages.
Qed.

(** C4.  An export never rejects and never changes the deck.  When it
    completes it has called [writeFile] once; if that call failed, the error
    is the one new [console.error] entry of the write step, one alert was
    raised, and no file was saved; if it succeeded no alert was raised. *)
Theorem write_failure_reported (env : Env) (p : Presentation) (th : Theme)
    (seeds : gmap nat jsstring) (bgi : option jsstring) (custom : gmap nat jsstring)
    (w : World) :
  match downloadPPTX env p th seeds bgi custom w with
  | Fulfilled _ w' =>
      deck w' = deck w
      ∧ ∃ fileName doc,
          writes w' = writes w ++ [(fileName, doc)]
          ∧ match disk env fileName doc with
            | WriteSucceeds =>
                alerts w' = alerts w ∧ files w' = files w ++ [(fileName, doc)]
            | WriteFails code =>
                alerts w' = alerts w ++ [saveErrorMessage]
                ∧ files w' = files w
                ∧ ∃ logs,
                    console w' = console w ++ logs
                      ++ [ConsoleError (lit "PPTX Generation Error:") (WriteFailed code)]
                    ∧ Forall image_log logs
            end
  | Rejected _ _ => False
  | Pending w' => deck w' = deck w ∧ alerts w' = alerts w ∧ files w' = files w
  end.
Proof.
  pose proof (downloadPPTX_run env p th seeds bgi custom w) as Hr.
  destruct (downloadPPTX env p th seeds bgi custom w) as [u w'|e w'|w']; [|done|].
  - destruct Hr as (pages & w1 & _ & Hout & _ & ->).
    destruct Hout as (Hdeck & Halerts & Hwrites & Hfiles & logs & Hlogs & Himg).
    split; [by destruct (disk env _ _)|].
    eexists _, _. split.
    { destruct (disk env _ _); simpl; by rewrite Hwrites. }
    destruct (disk env _ _) as [|code]; simpl.
    + by rewrite Halerts, Hfiles.
    + rewrite Halerts, Hfiles, Hlogs. split; [done|]. split; [done|].
      exists logs. by rewrite app_assoc.
  - destruct Hr as ((Hdeck & Halerts & _ & Hfiles & _) & _). done.
Qed.

(** C8.  With [includeImages] off the export completes without a single
    request, whatever the slides, the seeds and the custom images are. *)
Theorem no_fetch_without_images (env : Env) (p : Presentation) (th : Theme)
    (seeds : gmap nat jsstring) (bgi : option jsstring) (custom : gmap nat jsstring)
    (w : World) :
  includeImages p = false →
  ∃ w', downloadPPTX env p th seeds bgi custom w = Fulfilled () w'
        ∧ requests w' = requests w.
Proof.
  intros Hinc.
  pose proof (downloadPPTX_run env p th seeds bgi custom w) as Hr.
  destruct (downloadPPTX env p th seeds bgi custom w) as [[] w'|e w'|w']; [|done|].
  - exists w'. split; [done|].
    destruct Hr as (pages & w1 & _ & _ & Hsame & ->). rewrite (Hsame Hinc).
    by destruct (disk env _ _).
  - destruct Hr as (_ & Hinc' & _). congruence.
Qed.

(** C9.  An empty-string entry counts as no entry.  With
    [customSlideImages[i]] the empty string the slide is rendered exactly as
    without the entry and, images enabled, the fetch is made; with
    [imageSeeds[i]] the empty string the seed is the slide's own keyword and
    the slide is rendered exactly as without the entry. *)
Theorem empty_entries_are_absent (env : Env) (p : Presentation) (th : Theme)
    (seeds custom : gmap nat jsstring) (i : nat) (slide : Slide) (w : World) :
  (custom !! i = Some [] →
     contentSlide env p th seeds custom i slide w
     = contentSlide env p th seeds (delete i custom) i slide w
     ∧ (includeImages p = true →
        requests (world_of (contentSlide env p th seeds custom i slide w))
        = requests w ++ [picsumUrl (slideSeed seeds i slide)]))
  ∧ (seeds !! i = Some [] →
     slideSeed seeds i slide = imageKeyword slide
     ∧ contentSlide env p th seeds custom i slide w
       = contentSlide env p th (delete i seeds) custom i slide w).
Proof.
  split.
  - intros Hc. split.
    + unfold contentSlide. unfold_async. destruct (includeImages p); [|done].
      rewrite !slideImage_fetch by (by rewrite ?lookup_delete_eq, ?Hc).
      rewrite Hc, lookup_delete_eq.
      destruct (getBase64FromUrl env _ w) as [f w'|e w'|w']; try done.
      by destruct (truthy f).
    + intros Hinc.
      pose proof (contentSlide_images env p th seeds custom i slide w Hinc) as Himg.
      rewrite slideImage_fetch in Himg by (by rewrite Hc).
      pose proof (getBase64FromUrl_frame env (picsumUrl (slideSeed seeds i slide)) w) as Hf.
      destruct (getBase64FromUrl env _ w) as [f w'|e w'|w'].
      * destruct Himg as (page & -> & _). simpl. tauto.
      * destruct Himg as (page & -> & _). simpl. tauto.
      * rewrite Himg. simpl. tauto.
  - intros Hs.
    assert (slideSeed seeds i slide = imageKeyword slide) as Hseed
      by (unfold slideSeed; by rewrite Hs).
    assert (slideSeed (delete i seeds) i slide = imageKeyword slide) as Hseed'
      by (unfold slideSeed; by rewrite lookup_delete_eq).
    split; [done|].
    unfold contentSlide. unfold_async. destruct (includeImages p); [|done].
    destruct (truthy_opt (custom !! i)) eqn:Hc.
    + by rewrite !slideImage_custom.
    + rewrite !slideImage_fetch by done. by rewrite Hseed, Hseed'.
Qed.

Lemma take_truthy (n : nat) (s : jsstring) :
  truthy (take (S n) s) = truthy s.
Proof. by destruct s. Qed.

Lemma filter_allowed (s : jsstring) :
  Forall allowed (List.filter (λ c, negb (unsafeChar c)) s).
Proof.
  apply Forall_forall. intros c Hc. apply list_elem_of_In in Hc.
  apply List.filter_In in Hc as [_ Hc].
  apply unsafeChar_allowed. by apply negb_true_iff.
Qed.

Lemma default_name_allowed : Forall allowed (lit "Presentation").
Proof.
  assert (forallb (λ c, negb (unsafeChar c)) (lit "Presentation") = true) as H
    by (by vm_compute).
  rewrite forallb_forall in H.
  apply Forall_forall. intros c Hc. apply unsafeChar_allowed.
  apply list_elem_of_In in Hc. by apply negb_true_iff, H.
Qed.

(** C7 (amended).  The allow-list of the file name is the ranges the regular
    expression writes out: [a-z], [A-Z], [0-9], U+0430..U+044F, U+0410..U+042F
    and the space.  [safeTitle] is the title without the characters outside
    them, cut to its first 30 code units, or [Presentation] when nothing is
    left; it is never empty and contains allowed characters only; the file
    handed to [writeFile] is named [safeTitle] followed by [.pptx]. *)
Theorem safeTitle_allow_list (env : Env) (p : Presentation) (th : Theme)
    (seeds : gmap nat jsstring) (bgi : option jsstring) (custom : gmap nat jsstring)
    (w : World) :
  (∀ c, unsafeChar c = false ↔ allowed c)
  ∧ safeTitle p
    = (if truthy (List.filter (λ c, negb (unsafeChar c)) (mainTitle p))
       then take 30 (List.filter (λ c, negb (unsafeChar c)) (mainTitle p))
       else lit "Presentation")
  ∧ Forall allowed (safeTitle p)
  ∧ (0 < length (safeTitle p) ≤ 30)%nat
  ∧ match downloadPPTX env p th seeds bgi custom w with
    | Fulfilled _ w' =>
        ∃ doc, writes w' = writes w ++ [(safeTitle p ++ lit ".pptx", doc)]
    | Rejected _ _ => False
    | Pending w' => writes w' = writes w
    end.
Proof.
  assert (safeTitle p
          = (if truthy (List.filter (λ c, negb (unsafeChar c)) (mainTitle p))
             then take 30 (List.filter (λ c, negb (unsafeChar c)) (mainTitle p))
             else lit "Presentation")) as Heq.
  { unfold safeTitle, substring0. by rewrite replaceAll_filter, take_truthy. }
  split; [apply unsafeChar_allowed|]. split; [done|]. split; [|split].
  - rewrite Heq. destruct (truthy _).
    + apply Forall_take, filter_allowed.
    + apply default_name_allowed.
  - rewrite Heq. destruct (truthy _) eqn:Ht.
    + rewrite length_take. apply truthy_length in Ht. lia.
    + replace (length (lit "Presentation")) with 12%nat by (by vm_compute). lia.
  - pose proof (downloadPPTX_run env p th seeds bgi custom w) as Hr.
    destruct (downloadPPTX env p th seeds bgi custom w) as [u w'|e w'|w']; [|done|].
    + destruct Hr as (pages & w1 & _ & Hout & _ & ->).
      destruct Hout as (_ & _ & Hwrites & _).
      eexists. destruct (disk env _ _); simpl; by rewrite Hwrites.
    + by destruct Hr as ((_ & _ & Hwrites & _) & _).
Qed.

(** C10.  The one master of the document carries the slide number in the
    theme's secondary colour; without a background image its background is
    the theme's flat colour and its only object is the accent bar across the
    bottom; with a background image that image is its background and it has
    no object.  Every page of the document, the cover included, is laid out
    with that master. *)
Theorem master_layout (env : Env) (p : Presentation) (th : Theme)
    (seeds : gmap nat jsstring) (bgi : option jsstring) (custom : gmap nat jsstring)
    (w : World) :
  match downloadPPTX env p th seeds bgi custom w with
  | Fulfilled _ w' =>
      ∃ fileName doc m,
        writes w' = writes w ++ [(fileName, doc)]
        ∧ pres_masters doc = [m]
        ∧ Forall (λ page, page_master doc page = Some m) (pres_slides doc)
        ∧ head (pres_slides doc) = Some (coverSlide p th)
        ∧ sn_color (master_slideNumber m) = hex_secondary (hex (colors th))
        ∧ match bgi with
          | Some (c :: cs) =>
              master_background m = BackgroundData (c :: cs) ∧ master_objects m = []
          | _ =>
              master_background m = BackgroundColor (hex_bg (hex (colors th)))
              ∧ master_objects m
                = [Rect (Num 0) (Pct (lit "95%")) (Pct (lit "100%")) (Pct (lit "5%"))
                     (hex_accent (hex (colors th)))]
          end
  | Rejected _ _ => False
  | Pending w' => writes w' = writes w
  end.
Proof.
  pose proof (downloadPPTX_run env p th seeds bgi custom w) as Hr.
  destruct (downloadPPTX env p th seeds bgi custom w) as [u w'|e w'|w']; [|done|].
  - destruct Hr as (pages & w1 & Hpages & Hout & _ & ->).
    destruct Hout as (_ & _ & Hwrites & _).
    eexists _, _, (masterSlide th bgi). split.
    { destruct (disk env _ _); simpl; by rewrite Hwrites. }
    simpl. split; [done|]. split.
    + constructor.
      * done.
      * apply Forall_forall. intros page Hpage.
        apply list_elem_of_lookup in Hpage as [k Hk].
        destruct (Forall2_lookup_r _ _ _ _ _ Hpages Hk) as (slide & _ & Hmaster & _).
        unfold page_master. simpl. rewrite Hmaster.
        by rewrite bool_decide_eq_true_2.
    + split; [done|]. split; [done|].
      unfold masterBackground. by destruct bgi as [[|c cs]|].
  - by destruct Hr as ((_ & _ & Hwrites & _) & _).
Qed.

(** ** Concrete runs *)

Local Transparent timeoutMs.

(** C1, as first stated, fails: the timer is cleared once the response has
    arrived, so a body that takes ten seconds is waited for and the fetch
    settles 10100 ms after it began, with the image. *)
Lemma slow_body_outlasts_timer :
  getBase64FromUrl slowBody (picsumUrl (lit "flower")) (freshWorld (sampleDeck true))
  = Fulfilled pngUri
      (at_time (100 + 10 * 1000)
         (with_request (picsumUrl (lit "flower")) (freshWorld (sampleDeck true))))
  ∧ ¬ settles_by (now (freshWorld (sampleDeck true)) + timeoutMs)
        (getBase64FromUrl slowBody (picsumUrl (lit "flower"))
           (freshWorld (sampleDeck true))).
Proof.
  assert (getBase64FromUrl slowBody (picsumUrl (lit "flower"))
            (freshWorld (sampleDeck true))
          = Fulfilled pngUri
              (at_time (100 + 10 * 1000)
                 (with_request (picsumUrl (lit "flower"))
                    (freshWorld (sampleDeck true))))) as H
    by (vm_compute; reflexivity).
  split; [exact H|]. rewrite H. unfold settles_by, timeoutMs, at_time, freshWorld, now.
  lia.
Qed.

Lemma image_fetch_degrades_offline :
  ∃ w', getBase64FromUrl offline (picsumUrl (lit "flower")) (freshWorld (sampleDeck true))
        = Fulfilled [] w'
        ∧ (timed_out NetStalls = true → now w' = (0 + timeoutMs)%nat)
        ∧ (∃ page, contentSlide offline (sampleDeck true) cleanWhite ∅ ∅ 0 introSlide
                     (freshWorld (sampleDeck true)) = Fulfilled page w'
                   ∧ page_images page = [])
        ∧ (∀ bgi w0 e w1,
             downloadPPTX offline (sampleDeck true) cleanWhite ∅ bgi ∅ w0 ≠ Rejected e w1).
Proof.
  exact (image_fetch_degrades offline (sampleDeck true) cleanWhite ∅ ∅ 0 introSlide
           (freshWorld (sampleDeck true)) eq_refl eq_refl eq_refl).
Defined.

Lemma image_precedence_upload :
  ∃ page, contentSlide slowBody (sampleDeck true) cleanWhite ∅ {[0%nat := uploadUri]} 0
            introSlide (freshWorld (sampleDeck true))
          = Fulfilled page (freshWorld (sampleDeck true))
          ∧ page_images page = [uploadUri].
Proof.
  pose proof (image_precedence slowBody (sampleDeck true) cleanWhite ∅
                {[0%nat := uploadUri]} 0 introSlide (freshWorld (sampleDeck true))
                eq_refl) as H.
  cbv zeta in H. rewrite lookup_singleton_eq in H.
  assert (∃ c cs, uploadUri = c :: cs) as (c & cs & Hu)
    by (by eexists _, _; vm_compute).
  rewrite Hu in *. exact H.
Defined.

Lemma no_fetch_without_images_sample :
  ∃ w', downloadPPTX slowBody (sampleDeck false) cleanWhite {[0%nat := lit "rose"]} None
          {[1%nat := uploadUri]} (freshWorld (sampleDeck false)) = Fulfilled () w'
        ∧ requests w' = [].
Proof.
  exact (no_fetch_without_images slowBody (sampleDeck false) cleanWhite
           {[0%nat := lit "rose"]} None {[1%nat := uploadUri]} (freshWorld (sampleDeck false))
           eq_refl).
Defined.


(** C7, as first stated, fails: [é] is a letter of the Latin script and lies
    outside the ranges of the regular expression. *)
Lemma safeTitle_strips_accented :
  safeTitle (titled (lit "Café")) = lit "Caf"
  ∧ scriptFileName (mainTitle (titled (lit "Café"))) = lit "Café"
  ∧ safeTitle (titled (lit "Café")) ≠ scriptFileName (mainTitle (titled (lit "Café"))).
Proof.
  split; [by vm_compute|]. split; [by vm_compute|]. by vm_compute.
Qed.

Example safeTitle_yo : safeTitle (titled (lit "Ёжик и мёд")) = lit "жик и мд".
Proof. by vm_compute. Qed.

Example sample_export_denied :
  ∃ w', downloadPPTX denied (sampleDeck true) cleanWhite ∅ None {[1%nat := uploadUri]}
          (freshWorld (sampleDeck true)) = Fulfilled () w'
        ∧ fst <$> writes w' = [lit "Моя Тема 2024.pptx"]
        ∧ (length ∘ pres_slides ∘ snd) <$> writes w' = [3%nat]
        ∧ requests w' = [picsumUrl (lit "flower")]
        ∧ alerts w' = [saveErrorMessage]
        ∧ files w' = []
        ∧ now w' = 50%nat.
Proof. eexists. split; [by vm_compute|]. by vm_compute. Qed.

Example sample_slide_titles :
  ∃ page w', contentSlide denied (sampleDeck false) cleanWhite ∅ ∅ 0 introSlide
               (freshWorld (sampleDeck false)) = Fulfilled page w'
             ∧ page_title page = Some (lit "Intro")
             ∧ objects page !! 2%nat
               = Some (TextRunsObject
                         [ {| run_text := lit "A"; run_breakLine := true;
                              run_indentLevel := 0; run_paraSpaceAfter := 10 |};
                           {| run_text := lit "B"; run_breakLine := true;
                              run_indentLevel := 0; run_paraSpaceAfter := 10 |} ]
                         {| tp_x := Pct (lit "5%"); tp_y := Pct (lit "25%");
                            tp_w := Pct (lit "90%"); tp_h := Pct (lit "65%");
                            tp_fontSize := 18; tp_bold := false; tp_align := None;
                            tp_color := lit "111827";
                            tp_bullet := Some (lit "bullet", lit "2022");
                            tp_valign := Some (lit "top"); tp_fontFace := lit "Arial";
                            tp_shrinkText := true |}).
Proof. eexists _, _. split; [by vm_compute|]. by vm_compute. Qed.

(** * Further properties of the code *)

(** ** Text and file names *)

Local Opaque timeoutMs.

Lemma strictEq_spec (a b : jsstring) : strictEq a b = true ↔ a = b.
Proof.
  revert b. induction a as [|x a IH]; intros [|y b]; simpl; try done.
  rewrite andb_true_iff, N.eqb_eq, IH. split.
  - by intros [-> ->].
  - by intros [= -> ->].
Qed.

Lemma sanitizeText_cons (s : jsstring) (c : N) (r : jsstring) :
  trim s = c :: r →
  ∃ d u, sanitizeText s = d :: u ++ r ∧ upperUnit d = [d] ∧ Forall inked (d :: u).
Proof.
  intros Ht. rewrite sanitizeText_eq, Ht.
  destruct (upperUnit_shape c) as (d & u & Hu & Hd & Hink).
  exists d, u. rewrite Hu. split; [done|]. split; [done|].
  apply Hink, (trim_head s). by rewrite Ht.
Qed.

(** X1.  The sanitized text is empty exactly when the text is empty or
    consists of whitespace only. *)
Theorem sanitizeText_empty_iff (s : jsstring) :
  sanitizeText s = [] ↔ Forall blank s.
Proof.
  split.
  - intros Hs. destruct (trim s) as [|c r] eqn:Ht.
    + destruct (trim_split s) as (l & r & Heq & Hl & Hr).
      rewrite Ht in Heq. rewrite Heq. simpl. by apply Forall_app.
    + destruct (sanitizeText_cons s c r Ht) as (d & u & Heq & _). congruence.
  - intros Hs. by rewrite sanitizeText_eq, trim_blank.
Qed.

(** X2.  Sanitized text carries no surrounding whitespace: it neither starts
    nor ends with a whitespace unit, so trimming it again changes nothing. *)
Theorem sanitizeText_trimmed (s : jsstring) :
  (∀ c, head (sanitizeText s) = Some c → inked c)
  ∧ (∀ c, last (sanitizeText s) = Some c → inked c)
  ∧ trim (sanitizeText s) = sanitizeText s.
Proof.
  assert ((∀ c, head (sanitizeText s) = Some c → inked c)
          ∧ (∀ c, last (sanitizeText s) = Some c → inked c)) as [Hh Hl].
  { destruct (trim s) as [|c r] eqn:Ht.
    - rewrite sanitizeText_eq, Ht. done.
    - destruct (sanitizeText_cons s c r Ht) as (d & u & -> & _ & Hink). split.
      + intros x [= <-]. by inversion Hink.
      + intros x Hx. change (d :: u ++ r) with ((d :: u) ++ r) in Hx.
        destruct r as [|b r'] using rev_ind.
        * rewrite app_nil_r in Hx. apply last_Some_elem_of in Hx.
          rewrite Forall_forall in Hink. by apply Hink.
        * rewrite app_assoc, last_snoc in Hx. injection Hx as <-.
          apply (trim_last s). rewrite Ht.
          change (c :: r' ++ [b]) with ((c :: r') ++ [b]). by rewrite last_snoc. }
  split; [done|]. split; [done|]. by apply trim_fixed.
Qed.

Lemma filter_all {A} (f : A → bool) (l : list A) :
  Forall (λ x, f x = true) l → List.filter f l = l.
Proof.
  induction 1 as [|x l Hx _ IH]; simpl; [done|]. by rewrite Hx, IH.
Qed.

Lemma safeTitle_filter (p : Presentation) :
  safeTitle p
  = (if truthy (List.filter (λ c, negb (unsafeChar c)) (mainTitle p))
     then take 30 (List.filter (λ c, negb (unsafeChar c)) (mainTitle p))
     else lit "Presentation").
Proof. unfold safeTitle, substring0. by rewrite replaceAll_filter, take_truthy. Qed.

Lemma safeTitle_shape (p : Presentation) :
  Forall allowed (safeTitle p) ∧ (0 < length (safeTitle p) ≤ 30)%nat.
Proof.
  rewrite safeTitle_filter. destruct (truthy _) eqn:Ht.
  - split; [apply Forall_take, filter_allowed|].
    rewrite length_take. apply truthy_length in Ht. lia.
  - split; [apply default_name_allowed|].
    replace (length (lit "Presentation")) with 12%nat by (by vm_compute). lia.
Qed.

(** X3.  Deriving the file name is idempotent: a deck whose title already is
    a derived name keeps it. *)
Theorem safeTitle_idempotent (p q : Presentation) :
  mainTitle q = safeTitle p → safeTitle q = safeTitle p.
Proof.
  intros Hq. destruct (safeTitle_shape p) as [Hall [Hpos Hlen]].
  rewrite (safeTitle_filter q), Hq.
  rewrite filter_all.
  - replace (truthy (safeTitle p)) with true
      by (symmetry; by apply truthy_length).
    by apply take_ge.
  - eapply Forall_impl; [exact Hall|]. intros c Hc. simpl.
    apply negb_true_iff. by apply unsafeChar_allowed.
Qed.

Lemma safeTitle_idempotent_sample :
  mainTitle (titled (lit "Моя Тема 2024")) = safeTitle (sampleDeck true)
  ∧ safeTitle (titled (lit "Моя Тема 2024")) = safeTitle (sampleDeck true).
Proof.
  split; [reflexivity|].
  apply (safeTitle_idempotent (sampleDeck true) (titled (lit "Моя Тема 2024"))).
  reflexivity.
Defined.

Lemma trimStart_blank_app (l s : jsstring) :
  Forall blank l → trimStart (l ++ s) = trimStart s.
Proof. induction 1 as [|c l Hc _ IH]; simpl; [done|]. by rewrite Hc. Qed.

Lemma trimEnd_app_blank (s r : jsstring) :
  Forall blank r → trimEnd (s ++ r) = trimEnd s.
Proof.
  intros Hr. induction s as [|c s IH]; simpl.
  - fold (trim r). rewrite <- (trimStart_fixed []) by done.
    induction Hr as [|x r Hx _ IHr]; simpl; [done|].
    simpl in IHr. rewrite IHr. by rewrite Hx.
  - by rewrite IH.
Qed.

(** X4.  Leaving an editable field after adding or removing only surrounding
    whitespace commits nothing: [handleBlur] calls [onChange] for a text that
    is the old value, itself without surrounding whitespace, padded with
    whitespace on either side, in no case. *)
Theorem handleBlur_ignores_padding (value l r : jsstring) :
  trim value = value → Forall blank l → Forall blank r →
  handleBlur value (l ++ value ++ r) = None.
Proof.
  intros Hv Hl Hr. unfold handleBlur.
  assert (trim (l ++ value ++ r) = value) as ->.
  { destruct value as [|c t].
    - apply trim_blank. simpl. by apply Forall_app.
    - assert (inked c) as Hc by (apply (trim_head (c :: t)); by rewrite Hv).
      assert (trimStart (c :: t) = c :: t) as Hs by (simpl; by rewrite Hc).
      unfold trim in *. rewrite trimStart_blank_app by done.
      rewrite Hs in Hv. simpl app. simpl trimStart. rewrite Hc.
      change (c :: t ++ r) with ((c :: t) ++ r).
      by rewrite trimEnd_app_blank. }
  replace (strictEq value value) with true
    by (symmetry; by apply strictEq_spec).
  done.
Qed.

Lemma handleBlur_ignores_padding_sample :
  handleBlur (lit "Intro") (lit "  Intro ") = None.
Proof.
  apply (handleBlur_ignores_padding (lit "Intro") (lit "  ") (lit " ")).
  - reflexivity.
  - repeat constructor.
  - repeat constructor.
Defined.

(** ** The export, pass by pass *)

Lemma contentSlides_passes (env : Env) (p : Presentation) (th : Theme)
    (seeds custom : gmap nat jsstring) (todo : list Slide) :
  ∀ (i : nat) (pres : PptxGen) (w : World) (pres' : PptxGen) (w' : World),
    contentSlides env p th seeds custom i todo pres w = Fulfilled pres' w' →
    ∃ pages, pres_slides pres' = pres_slides pres ++ pages
             ∧ passes env p th seeds custom i todo w pages w'.
Proof.
  induction todo as [|slide rest IH]; intros i pres w pres' w' Hrun; simpl in Hrun.
  - injection Hrun as <- <-. exists []. rewrite app_nil_r. split; [done|constructor].
  - unfold mbind, Async_bind in Hrun.
    destruct (contentSlide env p th seeds custom i slide w) as [page w1|e w1|w1] eqn:Hc;
      try done.
    apply IH in Hrun as (pages & Hs & Hp). exists (page :: pages).
    simpl in Hs. rewrite Hs, <- app_assoc. split; [done|].
    by econstructor.
Qed.

Lemma downloadPPTX_passes (env : Env) (p : Presentation) (th : Theme)
    (seeds : gmap nat jsstring) (bgi : option jsstring) (custom : gmap nat jsstring)
    (w : World) (u : unit) (w' : World) :
  downloadPPTX env p th seeds bgi custom w = Fulfilled u w' →
  ∃ pages w1 doc,
    passes env p th seeds custom 0 (slides p) w pages w1
    ∧ pres_slides doc = coverSlide p th :: pages
    ∧ writes w' = writes w1 ++ [(safeTitle p ++ lit ".pptx", doc)]
    ∧ requests w' = requests w1
    ∧ now w' = now w1.
Proof.
  unfold downloadPPTX. unfold mbind at 1. unfold Async_bind at 1.
  match goal with |- context [contentSlides _ _ _ _ _ 0 _ ?pres w] =>
    destruct (contentSlides env p th seeds custom 0 (slides p) pres w)
      as [pres' w1|e w1|w1] eqn:Hrun
  end; try done.
  apply contentSlides_passes in Hrun as (pages & Hs & Hp). simpl in Hs.
  unfold try_catch, writeFile. unfold_async.
  destruct (disk env _ _); simpl; intros [= _ <-];
    exists pages, w1, pres'; by repeat split.
Qed.

Lemma passes_Forall2 (env : Env) (p : Presentation) (th : Theme)
    (seeds custom : gmap nat jsstring) (Q : Slide → PptxSlide → Prop) :
  (∀ i slide w page w1,
     contentSlide env p th seeds custom i slide w = Fulfilled page w1 → Q slide page) →
  ∀ i todo w pages w', passes env p th seeds custom i todo w pages w' →
                       Forall2 Q todo pages.
Proof.
  intros HQ i todo w pages w' Hp.
  induction Hp as [|i slide rest w page w1 pages w2 Hc _ IH]; constructor; eauto.
Qed.

Lemma pass_requests (env : Env) (p : Presentation) (th : Theme)
    (seeds custom : gmap nat jsstring) (i : nat) (slide : Slide) (w : World)
    (page : PptxSlide) (w1 : World) :
  contentSlide env p th seeds custom i slide w = Fulfilled page w1 →
  requests w1
  = requests w ++ (if includeImages p
                   then expectedRequests seeds custom i [slide] else []).
Proof.
  intros Hc. pose proof (contentSlide_run env p th seeds custom i slide w) as Hr.
  rewrite Hc in Hr. destruct Hr as [_ Hr]. simpl. rewrite app_nil_r.
  destruct (includeImages p).
  - destruct Hr as (o & Ho & _). destruct (truthy_opt (custom !! i)) eqn:Hcu.
    + rewrite slideImage_custom in Ho by done. injection Ho as _ <-.
      by rewrite app_nil_r.
    + rewrite slideImage_fetch in Ho by done.
      pose proof (getBase64FromUrl_frame env (picsumUrl (slideSeed seeds i slide)) w)
        as Hf.
      destruct (getBase64FromUrl env _ w) as [f w2|e w2|w2]; try done;
        injection Ho as _ <-; tauto.
  - destruct Hr as [-> _]. by rewrite app_nil_r.
Qed.

Lemma pass_images (env : Env) (p : Presentation) (th : Theme)
    (seeds custom : gmap nat jsstring) (i : nat) (slide : Slide) (w : World)
    (page : PptxSlide) (w1 : World) :
  contentSlide env p th seeds custom i slide w = Fulfilled page w1 →
  Forall (genuine custom) (page_images page).
Proof.
  intros Hc. pose proof (contentSlide_run env p th seeds custom i slide w) as Hr.
  rewrite Hc in Hr. destruct Hr as [_ Hr].
  destruct (includeImages p); [|destruct Hr as [_ ->]; constructor].
  destruct Hr as (o & Ho & ->). unfold embedded.
  destruct (truthy_opt o) eqn:Hto; [|constructor].
  destruct o as [img|]; [|done]. simpl. constructor; [|constructor].
  destruct (truthy_opt (custom !! i)) eqn:Hcu.
  - rewrite slideImage_custom in Ho by done. injection Ho as Ho _.
    left. by exists i.
  - rewrite slideImage_fetch in Ho by done.
    destruct (getBase64FromUrl env _ w) as [f w2|e w2|w2] eqn:Hg; try done.
    + injection Ho as Ho _. destruct (truthy f) eqn:Hf.
      * injection Ho as ->.
        destruct (getBase64FromUrl_image _ _ _ _ _ Hg Hf) as (dt & dt2 & _ & _ & Hs).
        by right.
      * rewrite Ho in Hcu. simpl in Hcu, Hto. congruence.
    + injection Ho as Ho _. rewrite Ho in Hcu. simpl in Hcu, Hto. congruence.
Qed.

Lemma pass_text (env : Env) (p : Presentation) (th : Theme)
    (seeds custom : gmap nat jsstring) (i : nat) (slide : Slide) (w : World)
    (page : PptxSlide) (w1 : World) :
  contentSlide env p th seeds custom i slide w = Fulfilled page w1 →
  page_bullets page = [sanitizeText <$> content slide]
  ∧ page_bullet_width page
    = [Pct (if includeImages p then lit "50%" else lit "90%")]
  ∧ page_notes page = match speakerNotes slide with
                      | Some (c :: cs) => [sanitizeText (c :: cs)]
                      | _ => []
                      end.
Proof.
  unfold contentSlide. unfold_async.
  assert (∀ (l : list jsstring),
    run_text <$> ((λ point, {| run_text := sanitizeText point; run_breakLine := true;
                               run_indentLevel := 0; run_paraSpaceAfter := 10 |}) <$> l)
    = sanitizeText <$> l) as Hruns.
  { intros l. rewrite <- list_fmap_compose. done. }
  destruct (includeImages p).
  - destruct (slideImage env seeds custom i slide w) as [o w2|e w2|w2]; try done.
    destruct o as [[|c cs]|]; simpl; intros [= <- _];
      unfold page_bullets, page_bullet_width, page_notes; simpl; rewrite Hruns;
      by destruct (speakerNotes slide) as [[|? ?]|].
  - intros [= <- _].
    unfold page_bullets, page_bullet_width, page_notes; simpl; rewrite Hruns;
      by destruct (speakerNotes slide) as [[|? ?]|].
Qed.

Lemma passes_requests (env : Env) (p : Presentation) (th : Theme)
    (seeds custom : gmap nat jsstring) (i : nat) (todo : list Slide) (w : World)
    (pages : list PptxSlide) (w' : World) :
  passes env p th seeds custom i todo w pages w' →
  requests w'
  = requests w ++ (if includeImages p
                   then expectedRequests seeds custom i todo else []).
Proof.
  induction 1 as [i w|i slide rest w page w1 pages w2 Hc _ IH].
  - simpl. destruct (includeImages p); by rewrite app_nil_r.
  - rewrite IH, (pass_requests _ _ _ _ _ _ _ _ _ _ Hc). simpl.
    destruct (includeImages p); rewrite <- ?app_assoc; simpl;
      by rewrite ?app_nil_r.
Qed.

Lemma cover_images (p : Presentation) (th : Theme) :
  page_images (coverSlide p th) = [].
Proof.
  unfold page_images, coverSlide. simpl.
  by destruct (subTitle p) as [[|? ?]|].
Qed.

(** X5.  A completed export has made one request for each slide without a
    custom image, in deck order, to the URL seeded for that slide, and no
    other; without images none at all. *)
Theorem export_requests (env : Env) (p : Presentation) (th : Theme)
    (seeds : gmap nat jsstring) (bgi : option jsstring) (custom : gmap nat jsstring)
    (w : World) :
  match downloadPPTX env p th seeds bgi custom w with
  | Fulfilled _ w' =>
      requests w'
      = requests w ++ (if includeImages p
                       then expectedRequests seeds custom 0 (slides p) else [])
  | Rejected _ _ => False
  | Pending _ => includeImages p = true
  end.
Proof.
  pose proof (downloadPPTX_run env p th seeds bgi custom w) as Hr.
  destruct (downloadPPTX env p th seeds bgi custom w) as [u w'|e w'|w'] eqn:Hd;
    [|done|tauto].
  apply downloadPPTX_passes in Hd as (pages & w1 & doc & Hp & _ & _ & -> & _).
  by apply passes_requests in Hp.
Qed.

(** X6.  Every image a completed export embeds is an uploaded custom image
    or a data URI that starts with [data:image]; the cover embeds none. *)
Theorem export_images_genuine (env : Env) (p : Presentation) (th : Theme)
    (seeds : gmap nat jsstring) (bgi : option jsstring) (custom : gmap nat jsstring)
    (w : World) :
  match downloadPPTX env p th seeds bgi custom w with
  | Fulfilled _ w' =>
      ∃ fileName doc,
        writes w' = writes w ++ [(fileName, doc)]
        ∧ head (page_images <$> pres_slides doc) = Some []
        ∧ Forall (λ page, Forall (genuine custom) (page_images page)) (pres_slides doc)
  | Rejected _ _ => False
  | Pending _ => includeImages p = true
  end.
Proof.
  pose proof (downloadPPTX_run env p th seeds bgi custom w) as Hr.
  destruct (downloadPPTX env p th seeds bgi custom w) as [u w'|e w'|w'] eqn:Hd;
    [|done|tauto].
  destruct Hr as (_ & w0 & _ & (_ & _ & Hw0 & _) & _).
  apply downloadPPTX_passes in Hd as (pages & w1 & doc & Hp & Hdoc & Hw & _).
  exists (safeTitle p ++ lit ".pptx"), doc. rewrite Hdoc. simpl.
  rewrite cover_images. split; [|split; [done|]].
  - rewrite Hw. f_equal.
    clear -Hp. induction Hp as [|i slide rest w page w1 pages w2 Hc _ IH]; [done|].
    rewrite IH.
    pose proof (contentSlide_run env p th seeds custom i slide w) as Hr.
    rewrite Hc in Hr. destruct Hr as [_ Hr]. destruct (includeImages p).
    + destruct Hr as (o & Ho & _).
      pose proof (slideImage_run env seeds custom i slide w) as Hs.
      rewrite Ho in Hs. by destruct Hs as (_ & _ & ? & _).
    + by destruct Hr as [-> _].
  - constructor; [by rewrite cover_images|].
    apply (passes_Forall2 env p th seeds custom
             (λ _ page, Forall (genuine custom) (page_images page))) in Hp.
    + clear -Hp. induction Hp; by constructor.
    + intros. by eapply pass_images.
Qed.

(** X7.  On a completed export the page of every slide carries one bullet
    block whose paragraphs are the slide's bullets, sanitized, in order; the
    block is 50% wide with images enabled, whether or not the page got an
    image, and 90% wide without; presenter notes are attached, sanitized,
    exactly when the slide has non-empty notes. *)
Theorem export_text_blocks (env : Env) (p : Presentation) (th : Theme)
    (seeds : gmap nat jsstring) (bgi : option jsstring) (custom : gmap nat jsstring)
    (w : World) :
  match downloadPPTX env p th seeds bgi custom w with
  | Fulfilled _ w' =>
      ∃ w1 doc,
        writes w' = writes w1 ++ [(safeTitle p ++ lit ".pptx", doc)]
        ∧ Forall2
            (λ slide page,
               page_bullets page = [sanitizeText <$> content slide]
               ∧ page_bullet_width page
                 = [Pct (if includeImages p then lit "50%" else lit "90%")]
               ∧ page_notes page = match speakerNotes slide with
                                   | Some (c :: cs) => [sanitizeText (c :: cs)]
                                   | _ => []
                                   end)
            (slides p) (drop 1 (pres_slides doc))
  | Rejected _ _ => False
  | Pending _ => includeImages p = true
  end.
Proof.
  pose proof (downloadPPTX_run env p th seeds bgi custom w) as Hr.
  destruct (downloadPPTX env p th seeds bgi custom w) as [u w'|e w'|w'] eqn:Hd;
    [|done|tauto].
  apply downloadPPTX_passes in Hd as (pages & w1 & doc & Hp & Hdoc & Hw & _).
  exists w1, doc. split; [done|]. rewrite Hdoc. simpl. rewrite drop_0.
  eapply passes_Forall2; [|exact Hp].
  intros. by eapply pass_text.
Qed.

Lemma getBase64FromUrl_stalled (env : Env) (url : jsstring) (w : World) :
  net env (length (requests w)) url = NetStalls →
  ∃ w', getBase64FromUrl env url w = Fulfilled [] w'
        ∧ now w' = (now w + timeoutMs)%nat.
Proof.
  intros Hn. destruct (getBase64FromUrl_fails env url w) as (w' & Hg & Ht).
  - by rewrite Hn.
  - exists w'. split; [done|]. apply Ht. by rewrite Hn.
Qed.

Lemma pass_offline (env : Env) (p : Presentation) (th : Theme)
    (seeds custom : gmap nat jsstring) (i : nat) (slide : Slide) (w : World)
    (page : PptxSlide) (w1 : World) :
  (∀ n url, net env n url = NetStalls) →
  contentSlide env p th seeds custom i slide w = Fulfilled page w1 →
  now w1
  = (now w + (if includeImages p
              then length (expectedRequests seeds custom i [slide]) else 0)
             * timeoutMs)%nat.
Proof.
  intros Hoff Hc. pose proof (contentSlide_run env p th seeds custom i slide w) as Hr.
  rewrite Hc in Hr. destruct Hr as [_ Hr]. simpl. rewrite app_nil_r.
  destruct (includeImages p).
  - destruct Hr as (o & Ho & _). destruct (truthy_opt (custom !! i)) eqn:Hcu.
    + rewrite slideImage_custom in Ho by done. injection Ho as _ <-. simpl. lia.
    + rewrite slideImage_fetch in Ho by done.
      destruct (getBase64FromUrl_stalled env (picsumUrl (slideSeed seeds i slide)) w)
        as (w2 & Hg & Ht); [apply Hoff|].
      rewrite Hg in Ho. injection Ho as _ <-. simpl. lia.
  - destruct Hr as [-> _]. lia.
Qed.

Lemma passes_offline (env : Env) (p : Presentation) (th : Theme)
    (seeds custom : gmap nat jsstring) (i : nat) (todo : list Slide) (w : World)
    (pages : list PptxSlide) (w' : World) :
  (∀ n url, net env n url = NetStalls) →
  passes env p th seeds custom i todo w pages w' →
  now w'
  = (now w + (if includeImages p
              then length (expectedRequests seeds custom i todo) else 0)
             * timeoutMs)%nat.
Proof.
  intros Hoff Hp.
  induction Hp as [i w|i slide rest w page w1 pages w2 Hc _ IH].
  - simpl. destruct (includeImages p); lia.
  - rewrite IH, (pass_offline _ _ _ _ _ _ _ _ _ _ Hoff Hc). simpl.
    destruct (includeImages p); [|lia].
    rewrite app_nil_r, length_app. lia.
Qed.

(** X8.  The image fetches of an export run one after the other: when no
    request is ever answered the export still completes, and it settles
    [timeoutMs] after its start for each slide without a custom image. *)
Theorem export_offline_duration (env : Env) (p : Presentation) (th : Theme)
    (seeds : gmap nat jsstring) (bgi : option jsstring) (custom : gmap nat jsstring)
    (w : World) :
  (∀ n url, net env n url = NetStalls) →
  ∃ w', downloadPPTX env p th seeds bgi custom w = Fulfilled () w'
        ∧ now w'
          = (now w + (if includeImages p
                      then length (expectedRequests seeds custom 0 (slides p)) else 0)
                     * timeoutMs)%nat.
Proof.
  intros Hoff.
  pose proof (downloadPPTX_run env p th seeds bgi custom w) as Hr.
  destruct (downloadPPTX env p th seeds bgi custom w) as [[] w'|e w'|w'] eqn:Hd;
    [|done|].
  - exists w'. split; [done|].
    apply downloadPPTX_passes in Hd as (pages & w1 & doc & Hp & _ & _ & _ & ->).
    by apply passes_offline in Hp.
  - destruct Hr as (_ & _ & _ & n & url & dt & Hstall).
    by rewrite Hoff in Hstall.
Qed.

(** ** The theme catalog and the viewer *)

Lemma findTheme_in (themeId : jsstring) : findTheme themeId ∈ PRESENTATION_THEMES.
Proof.
  unfold findTheme. destruct (List.find _ _) as [t|] eqn:Hf.
  - apply List.find_some in Hf as [Hin _]. by apply list_elem_of_In.
  - simpl. apply list_elem_of_here.
Qed.

(** X9.  Looking a theme up by the identifier of a catalog entry returns that
    entry; any other identifier gives the first entry; the result always is
    an entry of the catalog. *)
Theorem findTheme_catalog :
  (∀ t, t ∈ PRESENTATION_THEMES → findTheme (theme_id t) = t)
  ∧ (∀ themeId, (∀ t, t ∈ PRESENTATION_THEMES → theme_id t ≠ themeId) →
                findTheme themeId = modernSlate)
  ∧ (∀ themeId, findTheme themeId ∈ PRESENTATION_THEMES).
Proof.
  split; [|split].
  - intros t Ht. unfold PRESENTATION_THEMES in Ht.
    repeat (apply elem_of_cons in Ht as [->|Ht]; [by vm_compute|]).
    by apply elem_of_nil in Ht.
  - intros themeId Hnew. unfold findTheme.
    destruct (List.find _ _) as [t|] eqn:Hf; [|done].
    apply List.find_some in Hf as [Hin Heq]. apply strictEq_spec in Heq.
    apply list_elem_of_In in Hin. by destruct (Hnew t Hin).
  - apply findTheme_in.
Qed.

(** X10.  Whatever the identifier, the four colours the export takes from
    the theme are strings of six hexadecimal digits. *)
Theorem findTheme_hex_colors (themeId : jsstring) :
  hexColor (hex_bg (hex (colors (findTheme themeId)))) = true
  ∧ hexColor (hex_text (hex (colors (findTheme themeId)))) = true
  ∧ hexColor (hex_accent (hex (colors (findTheme themeId)))) = true
  ∧ hexColor (hex_secondary (hex (colors (findTheme themeId)))) = true.
Proof.
  pose proof (findTheme_in themeId) as Hin. revert Hin. generalize (findTheme themeId). intros t Ht.
  unfold PRESENTATION_THEMES in Ht.
  repeat (apply elem_of_cons in Ht as [->|Ht]; [by vm_compute|]).
  by apply elem_of_nil in Ht.
Qed.

Ltac index_cases :=
  unfold index_kept, handleKeyDown in *; simpl in *;
  unfold nextSlide, prevSlide, resetEffect in *;
  simpl in *; rewrite ?Bool.eqb_reflx; simpl;
  repeat match goal with
         | |- context [(?a <? ?b)%nat] => destruct (Nat.ltb_spec a b); simpl in *
         end;
  repeat match goal with
         | |- context [(?a =? ?b)%nat] => destruct (Nat.eqb_spec a b); simpl in *
         end;
  lia.

Lemma react_index_kept (e : Event) (s s' : Screen) :
  react e s = Some s' → index_kept s → index_kept s'.
Proof.
  destruct e as [| | |idx|k editing| |p']; simpl; unfold rendered.
  - intros Heq Hkept; injection Heq as <-. index_cases.
  - intros Heq Hkept; injection Heq as <-. index_cases.
  - intros Heq Hkept; injection Heq as <-. index_cases.
  - destruct (Nat.ltb_spec idx (length (slides (shown s)))); [|done].
    intros Heq Hkept; injection Heq as <-. index_cases.
  - intros Heq Hkept; injection Heq as <-.
    destruct editing, (isChatOpen s), k; index_cases.
  - intros Heq Hkept; injection Heq as <-. destruct (isChatOpen s); index_cases.
  - intros Heq Hkept; injection Heq as <-.
    destruct (Nat.eqb_spec (length (slides p')) (length (slides (shown s))));
      index_cases.
Qed.

Lemma replay_index_kept (events : list Event) :
  ∀ s s', replay events s = Some s' → index_kept s → index_kept s'.
Proof.
  induction events as [|e rest IH]; intros s s'; simpl.
  - by intros [= <-].
  - destruct (react e s) as [s1|] eqn:He; [|done].
    intros Hrest Hs. eapply IH; [exact Hrest|]. by eapply react_index_kept.
Qed.

(** X11.  The keydown listener keeps the deck of the render in which the
    index or the chat flag last changed.  Whatever buttons, thumbnails, keys,
    chat toggles and deck replacements follow the mounting of the viewer, the
    index never gets more than one past the last slide; within the slides and
    off the cover there is a slide to show; one past the last slide there is
    none, and neither the button nor the key moves the index further. *)
Theorem viewer_index_excess (p : Presentation) (events : list Event) (s : Screen) :
  replay events (mountedScreen p) = Some s →
  (currentSlideIndex (view s) ≤ totalSlides (shown s))%nat
  ∧ ((currentSlideIndex (view s) ≤ length (slides (shown s)))%nat →
     isCover (view s) = false → is_Some (slideData (shown s) (view s)))
  ∧ ((length (slides (shown s)) < currentSlideIndex (view s))%nat →
     slideData (shown s) (view s) = None
     ∧ nextSlide (shown s) (view s) = view s
     ∧ handleKeyDown (heard s) false false ArrowRight (view s) = view s).
Proof.
  intros Hrun.
  assert (index_kept s) as Hkept.
  { eapply replay_index_kept; [exact Hrun|]. left. simpl. lia. }
  unfold index_kept, totalSlides in *. split; [lia|]. split.
  - intros Hle Hcover. unfold slideData. rewrite Hcover. simpl.
    apply lookup_lt_is_Some. unfold isCover in Hcover.
    apply Nat.eqb_neq in Hcover. lia.
  - intros Hgt. destruct Hkept as [Hle|[Heq Hheard]]; [lia|].
    split; [|split].
    + unfold slideData, isCover.
      destruct (Nat.eqb_spec (currentSlideIndex (view s)) 0); simpl; [done|].
      apply lookup_ge_None. lia.
    + unfold nextSlide.
      destruct (Nat.ltb_spec (currentSlideIndex (view s)) (length (slides (shown s))));
        [lia|done].
    + unfold handleKeyDown, nextSlide. simpl.
      destruct (Nat.ltb_spec (currentSlideIndex (view s)) (length (slides (heard s))));
        [lia|done].
Qed.

Lemma truthy_seed (kw random : jsstring) : truthy (kw ++ lit "-" ++ random) = true.
Proof. by destruct kw. Qed.

Lemma slideSeed_insert (seeds : gmap nat jsstring) (i : nat) (slide : Slide)
    (s : jsstring) :
  truthy s = true → slideSeed (<[i:=s]> seeds) i slide = s.
Proof. intros Hs. unfold slideSeed. rewrite lookup_insert_eq. simpl. by rewrite Hs. Qed.

Lemma slideData_lookup (p : Presentation) (v : Viewer) (sd : Slide) :
  slideData p v = Some sd →
  slides p !! (currentSlideIndex v - 1)%nat = Some sd
  ∧ (0 < currentSlideIndex v)%nat.
Proof.
  unfold slideData, isCover. destruct (currentSlideIndex v =? 0)%nat eqn:H0; [done|].
  simpl. apply Nat.eqb_neq in H0. intros ->. split; [done|lia].
Qed.

Lemma pass_request_made (env : Env) (p : Presentation) (th : Theme)
    (seeds custom : gmap nat jsstring) (i : nat) (slide : Slide) (w : World) :
  includeImages p = true → truthy_opt (custom !! i) = false →
  requests (world_of (contentSlide env p th seeds custom i slide w))
  = requests w ++ [picsumUrl (slideSeed seeds i slide)].
Proof.
  intros Hinc Hc.
  pose proof (contentSlide_images env p th seeds custom i slide w Hinc) as Himg.
  rewrite slideImage_fetch in Himg by done.
  pose proof (getBase64FromUrl_frame env (picsumUrl (slideSeed seeds i slide)) w) as Hf.
  destruct (getBase64FromUrl env _ w) as [f w'|e w'|w'].
  - destruct Himg as (page & -> & _). simpl. tauto.
  - destruct Himg as (page & -> & _). simpl. tauto.
  - rewrite Himg. simpl. tauto.
Qed.

(** X12.  Refreshing the image of the slide on screen removes its custom
    image, stores the seed [keyword-random] for it and leaves the entries of
    every other slide alone; an export with images then requests that slide's
    image by the new seed. *)
Theorem refresh_then_export (env : Env) (p : Presentation) (th : Theme) (v : Viewer)
    (random : jsstring) (sd : Slide) (w : World) :
  slideData p v = Some sd →
  slides p !! (currentSlideIndex v - 1)%nat = Some sd
  ∧ truthy_opt (customSlideImages (refreshImage random p v)
                  !! (currentSlideIndex v - 1)%nat) = false
  ∧ imageSeeds (refreshImage random p v) !! (currentSlideIndex v - 1)%nat
    = Some (imageKeyword sd ++ lit "-" ++ random)
  ∧ (∀ j, j ≠ (currentSlideIndex v - 1)%nat →
          customSlideImages (refreshImage random p v) !! j = customSlideImages v !! j
          ∧ imageSeeds (refreshImage random p v) !! j = imageSeeds v !! j)
  ∧ (includeImages p = true →
     requests (world_of (contentSlide env p th
                           (imageSeeds (refreshImage random p v))
                           (customSlideImages (refreshImage random p v))
                           (currentSlideIndex v - 1) sd w))
     = requests w ++ [picsumUrl (imageKeyword sd ++ lit "-" ++ random)]).
Proof.
  intros Hsd. destruct (slideData_lookup p v sd Hsd) as [Hlook _].
  split; [done|]. unfold refreshImage. rewrite Hsd. cbv zeta.
  set (i := (currentSlideIndex v - 1)%nat) in *.
  set (v1 := if truthy_opt (customSlideImages v !! i)
             then setCustomSlideImages (delete i (customSlideImages v)) v
             else v).
  set (newSeed := imageKeyword sd ++ lit "-" ++ random).
  assert (imageSeeds v1 = imageSeeds v) as Hs1
    by (unfold v1; by destruct (truthy_opt _)).
  assert (truthy_opt (customSlideImages v1 !! i) = false) as Hc1.
  { unfold v1. destruct (truthy_opt (customSlideImages v !! i)) eqn:Hc; [|done].
    simpl. by rewrite lookup_delete_eq. }
  assert (∀ j, j ≠ i → customSlideImages v1 !! j = customSlideImages v !! j) as Hc2.
  { intros j Hj. unfold v1. destruct (truthy_opt (customSlideImages v !! i)); [|done].
    simpl. by rewrite lookup_delete_ne. }
  change (customSlideImages (setImageSeeds (<[i:=newSeed]> (imageSeeds v1)) v1))
    with (customSlideImages v1).
  change (imageSeeds (setImageSeeds (<[i:=newSeed]> (imageSeeds v1)) v1))
    with (<[i:=newSeed]> (imageSeeds v1)).
  rewrite Hs1.
  split; [done|]. split; [by rewrite lookup_insert_eq|].
  split; [intros j Hj; split; [by apply Hc2 | by rewrite lookup_insert_ne]|].
  intros Hinc. rewrite pass_request_made by done.
  by rewrite slideSeed_insert by apply truthy_seed.
Qed.

(** X13.  A file chosen on a slide becomes the custom image of that slide
    and of no other; an export with images then embeds it on that slide's
    page without a request; refreshing the image afterwards discards it. *)
Theorem upload_then_export (env : Env) (p : Presentation) (th : Theme) (v : Viewer)
    (result random : jsstring) (sd : Slide) (w : World) :
  slideData p v = Some sd →
  truthy result = true →
  customSlideImages (handleSlideImageChange (Some result) p v)
    !! (currentSlideIndex v - 1)%nat = Some result
  ∧ (∀ j, j ≠ (currentSlideIndex v - 1)%nat →
          customSlideImages (handleSlideImageChange (Some result) p v) !! j
          = customSlideImages v !! j)
  ∧ imageSeeds (handleSlideImageChange (Some result) p v) = imageSeeds v
  ∧ (includeImages p = true →
     ∃ page,
       contentSlide env p th (imageSeeds v)
         (customSlideImages (handleSlideImageChange (Some result) p v))
         (currentSlideIndex v - 1) sd w = Fulfilled page w
       ∧ page_images page = [result])
  ∧ customSlideImages
      (refreshImage random p (handleSlideImageChange (Some result) p v))
      !! (currentSlideIndex v - 1)%nat = None.
Proof.
  intros Hsd Hres. unfold handleSlideImageChange. rewrite Hsd. simpl.
  set (i := (currentSlideIndex v - 1)%nat) in *.
  split; [by rewrite lookup_insert_eq|].
  split; [intros j Hj; by rewrite lookup_insert_ne|].
  split; [done|]. split.
  - intros Hinc.
    pose proof (contentSlide_images env p th (imageSeeds v)
                  (<[i:=result]> (customSlideImages v)) i sd w Hinc) as Himg.
    rewrite slideImage_custom in Himg by (by rewrite lookup_insert_eq).
    destruct Himg as (page & Hpage & Himg). exists page. split; [done|].
    rewrite Himg, lookup_insert_eq. unfold embedded. simpl. by rewrite Hres.
  - unfold refreshImage.
    assert (slideData p
              (setCustomSlideImages (<[i:=result]> (customSlideImages v)) v)
            = Some sd) as -> by done.
    simpl. fold i. rewrite lookup_insert_eq. simpl. rewrite Hres. simpl.
    by rewrite lookup_delete_eq.
Qed.

Lemma insert_edited (p : Presentation) (i : nat) (sd s' : Slide) :
  slides p !! i = Some sd → edited p (withSlides p (<[i:=s']> (slides p))) i s'.
Proof.
  intros Hi. apply lookup_lt_Some in Hi. unfold edited. simpl.
  split; [done|]. split; [done|]. split; [done|].
  split; [by rewrite length_insert|].
  split; [by apply list_lookup_insert_eq|].
  intros j Hj. by apply list_lookup_insert_ne.
Qed.

(** X14.  Editing the title or the notes of the slide on screen sends a deck
    in which that slide alone differs, in that field alone, with the number
    of slides, the titles of the deck and the image flag as before; on the
    cover, or with no slide under the index, nothing is sent. *)
Theorem slide_edits_local (p : Presentation) (v : Viewer) (newVal : jsstring) :
  match slideData p v with
  | Some sd =>
      ∃ p1 p2,
        updateSlideTitle p v newVal = Some p1
        ∧ updateSpeakerNotes p v newVal = Some p2
        ∧ edited p p1 (currentSlideIndex v - 1)
            {| title := newVal; content := content sd;
               imageKeyword := imageKeyword sd; speakerNotes := speakerNotes sd |}
        ∧ edited p p2 (currentSlideIndex v - 1)
            {| title := title sd; content := content sd;
               imageKeyword := imageKeyword sd; speakerNotes := Some newVal |}
  | None =>
      updateSlideTitle p v newVal = None ∧ updateSpeakerNotes p v newVal = None
  end.
Proof.
  unfold updateSlideTitle, updateSpeakerNotes.
  destruct (slideData p v) as [sd|] eqn:Hsd; [|done].
  destruct (slideData_lookup p v sd Hsd) as [Hlook _].
  eexists _, _. split; [done|]. split; [done|].
  split; by eapply insert_edited.
Qed.

(** X15.  After the title of the slide on screen is edited, a completed export
    of the deck that was sent shows the sanitized new title on the page with
    the viewer's index (the cover being page 0). *)
Theorem retitled_slide_exported (env : Env) (p : Presentation) (v : Viewer)
    (newVal : jsstring) (th : Theme) (seeds : gmap nat jsstring)
    (bgi : option jsstring) (custom : gmap nat jsstring) (w : World) :
  match updateSlideTitle p v newVal with
  | Some p' =>
      match downloadPPTX env p' th seeds bgi custom w with
      | Fulfilled _ w' =>
          ∃ fileName doc page,
            writes w' = writes w ++ [(fileName, doc)]
            ∧ pres_slides doc !! currentSlideIndex v = Some page
            ∧ page_title page = Some (sanitizeText newVal)
      | Rejected _ _ => False
      | Pending _ => includeImages p = true
      end
  | None => slideData p v = None
  end.
Proof.
  unfold updateSlideTitle.
  destruct (slideData p v) as [sd|] eqn:Hsd; [|done].
  destruct (slideData_lookup p v sd Hsd) as [Hsl Hpos].
  set (p' := withSlides p _).
  destruct (insert_edited p (currentSlideIndex v - 1) sd
              {| title := newVal; content := content sd;
                 imageKeyword := imageKeyword sd; speakerNotes := speakerNotes sd |}
              Hsl) as (_ & _ & Hinc & _ & Hlook & _).
  fold p' in Hinc, Hlook.
  pose proof (downloadPPTX_run env p' th seeds bgi custom w) as Hr.
  destruct (downloadPPTX env p' th seeds bgi custom w) as [u w'|e w'|w']; [|done|].
  - destruct Hr as (pages & w1 & Hpages & (_ & _ & Hw & _) & _ & ->).
    destruct (Forall2_lookup_l _ _ _ _ _ Hpages Hlook) as (page & Hpage & _ & Htitle).
    eexists _, _, page. split; [|split].
    + destruct (disk env _ _); simpl; by rewrite Hw.
    + simpl. destruct (currentSlideIndex v) as [|k]; [lia|].
      simpl in *. by rewrite Nat.sub_0_r in Hpage.
    + done.
  - rewrite <- Hinc. tauto.
Qed.

(** X16.  [handleDownloadPPTX] closes the export menu and raises the
    exporting flag; when the export settles, which it does with exactly one
    [writeFile] call and never with an error, the flag is lowered again; the
    flag stays raised only while an image body stalls. *)
Theorem handleDownloadPPTX_flags (env : Env) (p : Presentation) (themeId : jsstring)
    (v : Viewer) (w : World) :
  match handleDownloadPPTX env p themeId v w with
  | (v', Fulfilled _ w') =>
      isExporting v' = false ∧ showExportMenu v' = false
      ∧ currentSlideIndex v' = currentSlideIndex v
      ∧ customSlideImages v' = customSlideImages v ∧ imageSeeds v' = imageSeeds v
      ∧ ∃ fileName doc, writes w' = writes w ++ [(fileName, doc)]
  | (v', Rejected _ _) => False
  | (v', Pending _) =>
      isExporting v' = true ∧ showExportMenu v' = false
      ∧ includeImages p = true ∧ body_stalls env
  end.
Proof.
  unfold handleDownloadPPTX.
  pose proof (downloadPPTX_run env p (findTheme themeId) (imageSeeds v)
                (customBackground v) (customSlideImages v) w) as Hr.
  destruct (downloadPPTX env p _ _ _ _ w) as [u w'|e w'|w']; [|done|].
  - simpl. repeat split.
    destruct Hr as (pages & w1 & _ & (_ & _ & Hw & _) & _ & ->).
    eexists _, _. destruct (disk env _ _); simpl; by rewrite Hw.
  - simpl. tauto.
Qed.

(** X17.  The viewer and the export choose a slide's image alike: a non-empty
    custom image is both shown and embedded, without a request; otherwise
    both build their URL from the same seed, the seed override when it is
    non-empty and the slide's keyword when not. *)
Theorem viewer_and_export_agree (env : Env) (p : Presentation) (th : Theme)
    (v : Viewer) (idx : nat) (slide : Slide) (w : World) :
  includeImages p = true →
  match customSlideImages v !! idx with
  | Some (c :: cs) =>
      viewerImageSrc v idx slide = c :: cs
      ∧ ∃ page, contentSlide env p th (imageSeeds v) (customSlideImages v) idx slide w
                = Fulfilled page w
                ∧ page_images page = [c :: cs]
  | _ =>
      ∃ seed,
        viewerImageSrc v idx slide
        = lit "https://picsum.photos/seed/" ++ seed ++ lit "/800/1200"
        ∧ requests (world_of (contentSlide env p th (imageSeeds v)
                                (customSlideImages v) idx slide w))
          = requests w ++ [lit "https://picsum.photos/seed/" ++ seed ++ lit "/800/800"]
        ∧ seed = match imageSeeds v !! idx with
                 | Some (s :: ss) => s :: ss
                 | _ => imageKeyword slide
                 end
  end.
Proof.
  intros Hinc.
  assert (slideSeed (imageSeeds v) idx slide
          = match imageSeeds v !! idx with
            | Some (s :: ss) => s :: ss
            | _ => imageKeyword slide
            end) as Hseed.
  { unfold slideSeed. by destruct (imageSeeds v !! idx) as [[|s ss]|]. }
  unfold viewerImageSrc.
  destruct (customSlideImages v !! idx) as [[|c cs]|] eqn:Hc.
  - eexists. split; [done|]. split; [|done].
    rewrite pass_request_made by (done || by rewrite Hc). by rewrite Hseed.
  - split; [done|].
    pose proof (contentSlide_images env p th (imageSeeds v) (customSlideImages v)
                  idx slide w Hinc) as Himg.
    rewrite slideImage_custom in Himg by (by rewrite Hc).
    destruct Himg as (page & Hpage & Himg). exists page. split; [done|].
    by rewrite Himg, Hc.
  - eexists. split; [done|]. split; [|done].
    rewrite pass_request_made by (done || by rewrite Hc). by rewrite Hseed.
Qed.

(** X18.  The reader's promise is returned from the [try] block without
    being awaited: when the reader fails on a body that arrived in time,
    [getBase64FromUrl] rejects with the reader's error and logs no warning;
    the loop of the export catches the rejection, logs it with the index of
    the slide, and lays the page out without an image. *)
Theorem reader_error_is_caught_by_the_loop (env : Env) (p : Presentation) (th : Theme)
    (seeds custom : gmap nat jsstring) (i : nat) (slide : Slide) (w : World)
    (dt dt2 : nat) :
  net env (length (requests w)) (picsumUrl (slideSeed seeds i slide))
  = Responds dt true (BodyArrives dt2 ReaderErrors) →
  (dt < timeoutMs)%nat →
  includeImages p = true →
  truthy_opt (custom !! i) = false →
  ∃ w1,
    getBase64FromUrl env (picsumUrl (slideSeed seeds i slide)) w
    = Rejected ReaderFailed w1
    ∧ console w1 = console w
    ∧ now w1 = (now w + dt + dt2)%nat
    ∧ ∃ page,
        contentSlide env p th seeds custom i slide w
        = Fulfilled page
            (with_log (ConsoleErrorAt (lit "Error fetching image for slide") i
                         ReaderFailed) w1)
        ∧ page_images page = [].
Proof.
  intros Hnet Hdt Hinc Hcustom.
  assert (∃ w1, getBase64FromUrl env (picsumUrl (slideSeed seeds i slide)) w
                = Rejected ReaderFailed w1
                ∧ console w1 = console w ∧ now w1 = (now w + dt + dt2)%nat)
    as (w1 & Hget & Hcons & Hnow).
  { unfold getBase64FromUrl, fetch, blob, readAsDataURL. unfold_async. simpl.
    rewrite Hnet. simpl.
    replace (now w + timeoutMs <=? now w + dt)%nat with false
      by (symmetry; apply Nat.leb_gt; lia).
    simpl. eexists. by repeat split. }
  exists w1. split; [done|]. split; [done|]. split; [done|].
  pose proof (contentSlide_images env p th seeds custom i slide w Hinc) as Himg.
  rewrite slideImage_fetch, Hget in Himg by done.
  destruct Himg as (page & Hpage & Himg). exists page. split; [done|].
  rewrite Himg. unfold embedded. by rewrite Hcustom.
Qed.

(** ** Concrete runs of the further properties *)

Local Transparent timeoutMs.

Lemma reader_error_sample :
  ∃ w1,
    getBase64FromUrl unreadable (picsumUrl (slideSeed ∅ 0 introSlide))
      (freshWorld (sampleDeck true))
    = Rejected ReaderFailed w1
    ∧ console w1 = console (freshWorld (sampleDeck true))
    ∧ now w1 = (now (freshWorld (sampleDeck true)) + 20 + 30)%nat
    ∧ ∃ page,
        contentSlide unreadable (sampleDeck true) cleanWhite ∅ ∅ 0 introSlide
          (freshWorld (sampleDeck true))
        = Fulfilled page
            (with_log (ConsoleErrorAt (lit "Error fetching image for slide") 0
                         ReaderFailed) w1)
        ∧ page_images page = [].
Proof.
  apply (reader_error_is_caught_by_the_loop unreadable (sampleDeck true) cleanWhite
           ∅ ∅ 0 introSlide (freshWorld (sampleDeck true)) 20 30).
  - reflexivity.
  - unfold timeoutMs. lia.
  - reflexivity.
  - reflexivity.
Defined.

Lemma export_offline_duration_sample :
  ∃ w',
    downloadPPTX offline (sampleDeck true) cleanWhite ∅ None {[1%nat := uploadUri]}
      (freshWorld (sampleDeck true)) = Fulfilled () w'
    ∧ now w'
      = (now (freshWorld (sampleDeck true))
         + (if includeImages (sampleDeck true)
            then length (expectedRequests ∅ {[1%nat := uploadUri]} 0
                           (slides (sampleDeck true)))
            else 0) * timeoutMs)%nat.
Proof.
  apply (export_offline_duration offline (sampleDeck true) cleanWhite ∅ None
           {[1%nat := uploadUri]} (freshWorld (sampleDeck true))).
  intros n url. reflexivity.
Defined.

Example export_offline_sample_time :
  ∃ w',
    downloadPPTX offline (sampleDeck true) cleanWhite ∅ None {[1%nat := uploadUri]}
      (freshWorld (sampleDeck true)) = Fulfilled () w'
    ∧ now w' = 4000%nat.
Proof. eexists. split; [by vm_compute|]. by vm_compute. Qed.

Lemma refresh_then_export_sample :
  slideData (sampleDeck true) (setCurrentSlideIndex 1 mounted) = Some introSlide
  ∧ imageSeeds (refreshImage (lit "k3x9") (sampleDeck true)
                  (setCurrentSlideIndex 1 mounted)) !! 0%nat
    = Some (lit "flower-k3x9").
Proof.
  split; [reflexivity|].
  exact (proj1 (proj2 (proj2
           (refresh_then_export slowBody (sampleDeck true) cleanWhite
              (setCurrentSlideIndex 1 mounted) (lit "k3x9") introSlide
              (freshWorld (sampleDeck true)) eq_refl)))).
Defined.

Lemma upload_then_export_sample :
  slideData (sampleDeck true) (setCurrentSlideIndex 2 mounted) = Some outroSlide
  ∧ truthy uploadUri = true
  ∧ customSlideImages
      (handleSlideImageChange (Some uploadUri) (sampleDeck true)
         (setCurrentSlideIndex 2 mounted)) !! 1%nat
    = Some uploadUri.
Proof.
  split; [reflexivity|]. split; [reflexivity|].
  exact (proj1 (upload_then_export slowBody (sampleDeck true) cleanWhite
                  (setCurrentSlideIndex 2 mounted) uploadUri (lit "k3x9") outroSlide
                  (freshWorld (sampleDeck true)) eq_refl eq_refl)).
Defined.

Lemma viewer_and_export_agree_sample :
  ∃ seed,
    viewerImageSrc mounted 0 introSlide
    = lit "https://picsum.photos/seed/" ++ seed ++ lit "/800/1200"
    ∧ requests (world_of (contentSlide slowBody (sampleDeck true) cleanWhite
                            (imageSeeds mounted) (customSlideImages mounted) 0
                            introSlide (freshWorld (sampleDeck true))))
      = requests (freshWorld (sampleDeck true))
        ++ [lit "https://picsum.photos/seed/" ++ seed ++ lit "/800/800"]
    ∧ seed = match imageSeeds mounted !! 0%nat with
             | Some (s :: ss) => s :: ss
             | _ => imageKeyword introSlide
             end.
Proof.
  exact (viewer_and_export_agree slowBody (sampleDeck true) cleanWhite mounted 0
           introSlide (freshWorld (sampleDeck true)) eq_refl).
Defined.

(** A deck of three slides, the next button, a deck of one slide, the right
    arrow: the listener still guards with the three slides and the index
    ends one past the only slide. *)
Lemma stale_listener_sample :
  replay [ClickNext; Replace oneSlide; Press ArrowRight false]
    (mountedScreen threeSlides)
  = Some (rendered
            (rendered (rendered (mountedScreen threeSlides) threeSlides
                         (setCurrentSlideIndex 1 mounted) false)
               oneSlide (setCurrentSlideIndex 1 mounted) false)
            oneSlide (setCurrentSlideIndex 2 mounted) false)
  ∧ slideData oneSlide (setCurrentSlideIndex 2 mounted) = None.
Proof.
  split; [reflexivity|].
  refine (proj1 (proj2 (proj2
            (viewer_index_excess threeSlides
               [ClickNext; Replace oneSlide; Press ArrowRight false] _ eq_refl)) _)).
  simpl. lia.
Defined.
